(** * ERC725 facade (src/index.ts): a shallow embedding and its properties

    The class [ERC725] of [src/index.ts] is embedded function by function.
    Promises are run to completion: an [async] method is a function into
    [result], a rejected promise is [Throw].  The one place where a promise
    object itself is passed around as a value (the accumulator of the
    [reduce] in [getDataFromExternalSources]) keeps the promise explicit.

    JavaScript objects used as maps are association lists in insertion
    order, which is the enumeration order of [Object.entries] for property
    names that are not array indices (schema names and 0x-prefixed keys). *)

From Stdlib Require Import Strings.String Strings.Ascii Strings.Byte List ZArith Bool Lia.
Import ListNotations.
Open Scope string_scope.
Set Warnings "-register-all".

(** ** Errors and results *)

Inductive error : Type :=
| MissingSchema                       (* new Error('Missing schema.') *)
| IncorrectProvider                   (* 'Incorrect or unsupported provider ...' *)
| MissingAddress                      (* 'Missing ERC725 contract address.' *)
| MissingProvider                     (* 'Missing provider.' *)
| SchemaNotFoundError (key : string)  (* no descriptor for a name or key *)
| NotAnArraySchema                    (* 'The "getArrayValues" method requires ...' *)
| TypeError                           (* property access on undefined, spread of undefined *)
| StoreError (msg : string)           (* thrown by the store collaborator *)
| FetchError (url : option string)    (* fetch(url) rejected *)
| SyntaxError                         (* response.json() rejected *)
| EncodingError (name : string)
| DecodingError (name : string).

Inductive result (A : Type) : Type :=
| Ok (a : A)
| Throw (e : error).
Arguments Ok {A} a.
Arguments Throw {A} e.

Definition bind {A B} (r : result A) (k : A -> result B) : result B :=
  match r with
  | Ok a => k a
  | Throw e => Throw e
  end.

Notation "x <- r ;; k" := (bind r (fun x => k))
  (at level 61, r at next level, right associativity).

Fixpoint mapM {A B} (f : A -> result B) (l : list A) : result (list B) :=
  match l with
  | [] => Ok []
  | a :: l' => b <- f a ;; bs <- mapM f l' ;; Ok (b :: bs)
  end.

Definition isOk {A} (r : result A) : bool :=
  match r with Ok _ => true | Throw _ => false end.

(** ** Strings *)

(** [String.prototype.toLowerCase] on the ASCII letters.  The facade only
    compares lowered strings with 'array', 'jsonurl' and 'asseturl'; no
    character outside ASCII lowers to one of their letters. *)
Definition lowerAscii (c : ascii) : ascii :=
  let n := nat_of_ascii c in
  if (65 <=? n)%nat && (n <=? 90)%nat then ascii_of_nat (n + 32) else c.

Fixpoint toLowerCase (s : string) : string :=
  match s with
  | EmptyString => EmptyString
  | String c s' => String (lowerAscii c) (toLowerCase s')
  end.

(** [stripPrefix p s] is [Some rest] when [s = p ++ rest]. *)
Fixpoint stripPrefix (p s : string) : option string :=
  match p with
  | EmptyString => Some s
  | String a p' =>
      match s with
      | EmptyString => None
      | String b s' => if Ascii.eqb a b then stripPrefix p' s' else None
      end
  end.

(** The first occurrence of [p] in [s]: the text before it and the text
    after it. *)
Fixpoint splitOn (p s : string) : option (string * string) :=
  match stripPrefix p s with
  | Some rest => Some (EmptyString, rest)
  | None =>
      match s with
      | EmptyString => None
      | String c s' =>
          match splitOn p s' with
          | Some (before, after) => Some (String c before, after)
          | None => None
          end
      end
  end.

(** [s.indexOf(p)], -1 when [p] does not occur. *)
Definition indexOf (p s : string) : Z :=
  match splitOn p s with
  | Some (before, _) => Z.of_nat (String.length before)
  | None => (-1)%Z
  end.

(** The replacement text of [String.prototype.replace] for a string
    pattern (GetSubstitution with no captures): [$$] is a dollar sign,
    [$&] the matched text, [$`] the text before the match, [$'] the text
    after it; every other character, a lone [$] included, stands for
    itself. *)
Fixpoint GetSubstitution (matched before after replacement : string) : string :=
  match replacement with
  | EmptyString => EmptyString
  | String c rest =>
      if Ascii.eqb c "$" then
        match rest with
        | EmptyString => String c EmptyString
        | String d rest' =>
            if Ascii.eqb d "$" then
              String "$" (GetSubstitution matched before after rest')
            else if Ascii.eqb d "&" then
              matched ++ GetSubstitution matched before after rest'
            else if Ascii.eqb d "`" then
              before ++ GetSubstitution matched before after rest'
            else if Ascii.eqb d "'" then
              after ++ GetSubstitution matched before after rest'
            else String c (GetSubstitution matched before after rest)
        end
      else String c (GetSubstitution matched before after rest)
  end.

(** [s.replace(p, replacement)] for a string pattern [p]: the first
    occurrence only. *)
Definition replace (p replacement s : string) : string :=
  match splitOn p s with
  | Some (before, after) =>
      before ++ GetSubstitution p before after replacement ++ after
  | None => s
  end.

(** [s] starts with the scheme [p]. *)
Definition hasScheme (p s : string) : bool :=
  match stripPrefix p s with Some _ => true | None => false end.

(** ** Objects used as maps *)

Definition object (V : Type) : Type := list (string * V).

Fixpoint get {V} (o : object V) (k : string) : option V :=
  match o with
  | [] => None
  | (k', v) :: o' => if String.eqb k' k then Some v else get o' k
  end.

(** [o[k] = v]: an existing property keeps its place. *)
Fixpoint set {V} (o : object V) (k : string) (v : V) : object V :=
  match o with
  | [] => [(k, v)]
  | (k', v') :: o' =>
      if String.eqb k' k then (k, v) :: o' else (k', v') :: set o' k v
  end.

Definition hasOwnProperty {V} (o : object V) (k : string) : bool :=
  match get o k with Some _ => true | None => false end.

(** [{...a, ...b}] *)
Definition spread {V} (a b : object V) : object V :=
  fold_left (fun acc kv => set acc (fst kv) (snd kv)) b a.

(** ** Data model *)

Definition bytes : Type := list byte.

(** A raw store value: the bytes of the provider's hex string, or [None]
    for null and undefined. *)
Definition raw : Type := option bytes.

Record ERC725JSONSchema : Type := {
  name : string;
  key : string;
  keyType : string;
  valueType : string;
  valueContent : string;
}.

Record URLDataWithHash : Type := {
  hashFunction : string;
  hash : bytes;
  url : string;
}.

(** What sits under a key of [tmpData]: a raw value, or (for an assembled
    array) the list of key-value pairs. *)
Inductive stored : Type :=
| SRaw (r : raw)
| SPairs (l : list (string * stored)).

(** Decoded values, a variant keyed by [valueContent]. *)
Inductive value : Type :=
| VNull
| VBool (b : bool)
| VNumber (n : Z)
| VString (s : string)
| VBytes (b : bytes)
| VUrl (u : URLDataWithHash)
| VArray (l : list value).

(** Parsed JSON, as [response.json()] resolves to. *)
Inductive json : Type :=
| JNull
| JBool (b : bool)
| JNumber (n : Z)
| JString (s : string)
| JArray (l : list json)
| JObject (o : list (string * json)).

(** Fetched content: a [Uint8Array] or parsed JSON. *)
Inductive content : Type :=
| Uint8Array (b : bytes)
| Json (j : json).

(** An entry of what [fetchData] returns: a decoded on-chain value ([null]
    is [Decoded VNull]) or content fetched for it. *)
Inductive entry : Type :=
| Decoded (v : value)
| Fetched (c : content).

(** The response of [fetch]: [json] is [None] when [response.json()]
    rejects. *)
Record Response : Type := {
  arrayBuffer : bytes;
  parsedJson : option json;
}.

(** The store collaborator behind [this.options.provider] (the wrappers of
    [./providers] are the transport layer). *)
Record ProviderWrapper : Type := {
  provider_getData : option string -> string -> result raw;
  provider_getAllData :
    option string -> list string -> result (list (string * raw));
}.

(** The [provider] argument of the constructor, by the tests
    [initializeProvider] makes on it. *)
Inductive providerArg : Type :=
| ProviderAbsent
| ProviderWithRequest (p : ProviderWrapper)
| ProviderWithSend (p : ProviderWrapper)
| ProviderUnsupported.

Record ERC725Config : Type := {
  config_ipfsGateway : option string;
}.

Record Options : Type := {
  schemas : list ERC725JSONSchema;
  address : option string;
  provider : option ProviderWrapper;
  ipfsGateway : string;
}.

(** [string | string[] | undefined] *)
Inductive keyOrKeysArg : Type :=
| KUndefined
| KString (s : string)
| KArray (l : list string).

Inductive getDataResult : Type :=
| Single (v : value)
| Multiple (o : object value).

Inductive fetchDataResult : Type :=
| FetchedSingle (e : entry)
| FetchedMultiple (o : object entry).

(** JavaScript truthiness of a decoded value. *)
Definition truthy (v : value) : bool :=
  match v with
  | VNull => false
  | VBool b => b
  | VNumber n => negb (n =? 0)%Z
  | VString s => negb (String.eqb s "")
  | VBytes _ | VUrl _ | VArray _ => true
  end.

(** ** Collaborators outside [src/index.ts] *)

Class Collaborators : Type := {
  (* ./lib/encodeKeyName: the canonical key of a name *)
  encodeKeyName : string -> string;
  (* ./lib/utils encodeArrayKey: the key of an array element *)
  encodeArrayKey : string -> nat -> string;
  (* ./lib/utils convertIPFSGatewayUrl *)
  convertIPFSGatewayUrl : string -> string;
  (* web3-utils isAddress *)
  isAddress : string -> bool;
  (* the digest named by a hash function; None for an unsupported one *)
  hashData : string -> content -> option bytes;
  (* the global fetch; None when the request fails *)
  fetch : option string -> option Response;
}.

(** ** The library behind the facade ([./lib/utils], [./lib/constants])

    These functions are imported by [src/index.ts] and are not part of the
    sources at hand. *)

(** Modelled from the spec: [SUPPORTED_HASH_FUNCTION_STRINGS] of
    ./lib/constants is missing; these are the two names the spec and the
    facade use, a byte-oriented digest and a structured-content one. *)
Definition KECCAK256_BYTES : string := "keccak256(bytes)".
Definition KECCAK256_UTF8 : string := "keccak256(utf8)".

(** Modelled from the spec: the mark of a hash function whose selector is
    not recognised ("marks the hash-function as unsupported"). *)
Definition UNSUPPORTED_HASH_FUNCTION : string := "unsupported".

(** Modelled from the spec: [getSchemaElement] of ./lib/utils is missing.
    Section 4.2, resolve: the first descriptor whose key equals the input
    key or whose name equals the input name; SchemaNotFoundError when there
    is none.  An [undefined] element of the list ([None]) cannot be
    inspected. *)
Fixpoint getSchemaElementIn (l : list (option ERC725JSONSchema)) (k : string)
  : result ERC725JSONSchema :=
  match l with
  | [] => Throw (SchemaNotFoundError k)
  | None :: _ => Throw TypeError
  | Some e :: l' =>
      if String.eqb (key e) k || String.eqb (name e) k then Ok e
      else getSchemaElementIn l' k
  end.

Definition getSchemaElement (l : list ERC725JSONSchema) (k : string)
  : result ERC725JSONSchema :=
  getSchemaElementIn (map Some l) k.

(** *** Bytes and unsigned integers *)

Definition byteToZ (b : byte) : Z := Z.of_N (Byte.to_N b).

Definition byteOfZ (n : Z) : byte :=
  match Byte.of_N (Z.to_N (n mod 256)) with
  | Some b => b
  | None => x00
  end.

(** Little-endian digits of [n], [w] of them. *)
Fixpoint littleEndian (w : nat) (n : Z) : bytes :=
  match w with
  | O => []
  | S w' => byteOfZ n :: littleEndian w' (n / 256)
  end.

(** The fixed-width big-endian layout of an unsigned integer. *)
Definition encodeUint (w : nat) (n : Z) : bytes := rev (littleEndian w n).

Definition decodeUint (bs : bytes) : Z :=
  fold_left (fun acc b => (acc * 256 + byteToZ b)%Z) bs 0%Z.

Definition bytesEqb (a b : bytes) : bool :=
  if list_eq_dec Byte.byte_eq_dec a b then true else false.

(** *** The value codec *)

(** The layouts of the model, by [valueContent] and [valueType]: those
    whose bytes the facade or the spec fixes.  The facade decodes an
    array's length as 'Number', 'uint256' ([getArrayValues]) and reads the
    url, hash and hash function of a JSONURL or ASSETURL value; the spec
    (sections 4.3 and 6) gives the 32-byte big-endian length, the UTF-8
    string, the raw bytes and the packed reference.  Section 3 names more
    value types (boolean, address, integers of other widths, tuples)
    without their bytes: the model has no layout for them. *)
Inductive layout : Type :=
| LNumber      (* Number / uint256 *)
| LString      (* String / string  *)
| LBytes       (* Bytes / bytes    *)
| LUrl.        (* JSONURL, ASSETURL / bytes *)

(** Modelled from the spec: [HASH_FUNCTIONS] of ./lib/constants is missing;
    section 4.3 and section 6 fix the packed layout "4-byte hash-function
    selector | 32-byte content hash | UTF-8 url" and leave the table of
    selectors to the constants. *)
Class HashFunctions : Type := {
  HASH_FUNCTIONS : list (string * bytes);
}.

Section Codec.
Context {lib : Collaborators} {hf : HashFunctions}.

(** Modelled from the spec: ./lib/utils is missing.  The combinations of
    [valueContent] and [valueType] the model has a layout for; [None] for
    every other combination, those of section 3 that the model leaves out
    included. *)
Definition layoutOf (valueContent valueType : string) : option layout :=
  let c := toLowerCase valueContent in
  if String.eqb c "number" && String.eqb valueType "uint256" then Some LNumber
  else if String.eqb c "string" && String.eqb valueType "string" then Some LString
  else if String.eqb c "bytes" && String.eqb valueType "bytes" then Some LBytes
  else if (String.eqb c "jsonurl" || String.eqb c "asseturl")
          && String.eqb valueType "bytes" then Some LUrl
  else None.

Definition selectorOf (hashFunctionName : string) : option bytes :=
  option_map snd
    (find (fun p => String.eqb (fst p) hashFunctionName) HASH_FUNCTIONS).

Definition hashFunctionOfSelector (selector : bytes) : option string :=
  option_map fst (find (fun p => bytesEqb (snd p) selector) HASH_FUNCTIONS).

(** Modelled from the spec: section 4.3, what an unset raw value decodes
    to on the layouts of the model: zero, the empty string, no bytes, and
    [null] for a reference.  Off these layouts the model has no value to
    give and stands in [null]; nothing is proved from that case. *)
Definition neutral (valueContent valueType : string) : value :=
  match layoutOf valueContent valueType with
  | Some LNumber => VNumber 0
  | Some LString => VString ""
  | Some LBytes => VBytes []
  | Some LUrl | None => VNull
  end.

(** Modelled from the spec: [decodeKeyValue] of ./lib/utils is missing.
    Section 4.3, decode, on the layouts of the model: an unset value
    decodes to the neutral value and never fails; an integer is read
    big-endian; a string is its UTF-8 bytes; an external reference is
    unpacked as selector, hash and url, an unrecognised selector being
    marked unsupported.  A set value of a combination without a layout
    is an error of the model. *)
Definition decodeKeyValue (valueContent valueType : string) (v : stored)
    (name : string) : result value :=
  match v with
  | SPairs _ => Throw (DecodingError name)
  | SRaw None => Ok (neutral valueContent valueType)
  | SRaw (Some bs) =>
      match layoutOf valueContent valueType with
      | Some LNumber => Ok (VNumber (decodeUint bs))
      | Some LString => Ok (VString (string_of_list_byte bs))
      | Some LBytes => Ok (VBytes bs)
      | Some LUrl =>
          let selector := firstn 4 bs in
          Ok (VUrl {|
            hashFunction :=
              match hashFunctionOfSelector selector with
              | Some n => n
              | None => UNSUPPORTED_HASH_FUNCTION
              end;
            hash := firstn 32 (skipn 4 bs);
            url := string_of_list_byte (skipn 36 bs) |})
      | None => Throw (DecodingError name)
      end
  end.

(** Modelled from the spec: [encodeKeyValue] of ./lib/utils is missing.
    Section 4.3, encode: the value's shape is checked against the layout,
    a mismatch is an EncodingError naming the field. *)
Definition encodeKeyValue (valueContent valueType : string) (v : value)
    (name : string) : result bytes :=
  match layoutOf valueContent valueType, v with
  | Some LNumber, VNumber n =>
      if (0 <=? n)%Z && (n <? 2 ^ 256)%Z then Ok (encodeUint 32 n)
      else Throw (EncodingError name)
  | Some LString, VString s => Ok (list_byte_of_string s)
  | Some LBytes, VBytes bs => Ok bs
  | Some LUrl, VUrl u =>
      match selectorOf (hashFunction u) with
      | Some selector =>
          if (List.length selector =? 4)%nat && (List.length (hash u) =? 32)%nat
          then Ok (selector ++ hash u ++ list_byte_of_string (url u))%list
          else Throw (EncodingError name)
      | None => Throw (EncodingError name)
      end
  | _, _ => Throw (EncodingError name)
  end.

Definition isArrayKeyType (schema : ERC725JSONSchema) : bool :=
  String.eqb (toLowerCase (keyType schema)) "array".

(** The number a decoded length stands for in a loop bound. *)
Definition lengthOf (v : value) : nat :=
  match v with
  | VNumber n => Z.to_nat n
  | _ => O
  end.

(** Modelled from the spec: [decodeKey] of ./lib/utils is missing.
    Section 4.3: an Array descriptor decodes a collection of raw entries
    (length entry and element entries) into the sequence of the elements
    0..length-1, a missing element within range being an empty value;
    with no element entries beside the length the sequence is empty. *)
Definition decodeKey (schema : ERC725JSONSchema) (v : stored) : result value :=
  if isArrayKeyType schema then
    match v with
    | SRaw _ => Ok (VArray [])
    | SPairs l =>
        if existsb (fun kv => negb (String.eqb (fst kv) (key schema))) l then
          len <- decodeKeyValue "Number" "uint256"
                   (match get l (key schema) with
                    | Some s => s
                    | None => SRaw None
                    end) (name schema) ;;
          vs <- mapM (fun index =>
                  decodeKeyValue (valueContent schema) (valueType schema)
                    (match get l (encodeArrayKey (key schema) index) with
                     | Some s => s
                     | None => SRaw None
                     end) (name schema))
                (seq 0 (lengthOf len)) ;;
          Ok (VArray vs)
        else Ok (VArray [])
    end
  else decodeKeyValue (valueContent schema) (valueType schema) v (name schema).

(** Modelled from the spec: [decodeData] of ./lib/utils is missing.
    Section 4.6: every entry is resolved to its descriptor and decoded;
    the result maps the descriptor's name to the decoded value. *)
Definition lib_decodeData (data : object stored)
    (schemas : list ERC725JSONSchema)
  : result (object value) :=
  fold_left
    (fun acc kv =>
       decodedData <- acc ;;
       schemaElement <- getSchemaElement schemas (fst kv) ;;
       v <- decodeKey schemaElement (snd kv) ;;
       Ok (set decodedData (name schemaElement) v))
    data (Ok []).

(** Modelled from the spec: [encodeKey] of ./lib/utils is missing.
    Section 4.3: an Array descriptor expands to one length entry plus one
    entry per element. *)
Definition encodeKey (schema : ERC725JSONSchema) (v : value) : result stored :=
  if isArrayKeyType schema then
    match v with
    | VArray l =>
        len <- encodeKeyValue "Number" "uint256"
                 (VNumber (Z.of_nat (List.length l))) (name schema) ;;
        elements <- mapM (fun iv =>
                      bs <- encodeKeyValue (valueContent schema)
                              (valueType schema) (snd iv) (name schema) ;;
                      Ok (encodeArrayKey (key schema) (fst iv), SRaw (Some bs)))
                    (combine (seq 0 (List.length l)) l) ;;
        Ok (SPairs ((key schema, SRaw (Some len)) :: elements))
    | _ => Throw (EncodingError (name schema))
    end
  else
    bs <- encodeKeyValue (valueContent schema) (valueType schema) v
            (name schema) ;;
    Ok (SRaw (Some bs)).

(** Modelled from the spec: [encodeData] of ./lib/utils is missing.  The
    facade documents its result as "an object with hashed keys and
    encoded values". *)
Definition lib_encodeData (data : object value)
    (schemas : list (option ERC725JSONSchema)) : result (object stored) :=
  fold_left
    (fun acc kv =>
       accumulator <- acc ;;
       schemaElement <- getSchemaElementIn schemas (fst kv) ;;
       e <- encodeKey schemaElement (snd kv) ;;
       Ok (set accumulator (key schemaElement) e))
    data (Ok []).

(** Modelled from the spec: [isDataAuthentic] of ./lib/utils is missing.
    Section 4.5: the digest of the content under the named hash function
    is compared with the stored hash; an unsupported hash function is
    never authentic and is not a fault. *)
Definition isDataAuthentic (data : content) (expectedHash : option bytes)
    (hashFunctionName : option string) : bool :=
  match hashFunctionName, expectedHash with
  | Some f, Some h =>
      match hashData f data with
      | Some d => bytesEqb d h
      | None => false
      end
  | _, _ => false
  end.

End Codec.

(** ** The facade: class [ERC725] of [src/index.ts] *)

Section Facade.
Context {lib : Collaborators} {hf : HashFunctions}.

Definition validateSchemas (schemas : list ERC725JSONSchema)
  : list ERC725JSONSchema :=
  filter
    (fun schema =>
       let encodedKeyName := encodeKeyName (name schema) in
       let isKeyValid := String.eqb (key schema) encodedKeyName in
       isKeyValid)
    schemas.

Definition initializeProvider (providerOrProviderWrapper : providerArg)
  : result (option ProviderWrapper) :=
  match providerOrProviderWrapper with
  | ProviderAbsent => Ok None
  | ProviderWithRequest p => Ok (Some p)
  | ProviderWithSend p => Ok (Some p)
  | ProviderUnsupported => Throw IncorrectProvider
  end.

Definition defaultConfig_ipfsGateway : string :=
  "https://cloudflare-ipfs.com/ipfs/".

(** [new ERC725(schemas, address, provider, config)]; [schemas] is
    [None] when the argument is missing. *)
Definition constructor (schemas : option (list ERC725JSONSchema))
    (address : option string) (provider : providerArg)
    (config : option ERC725Config) : result Options :=
  match schemas with
  | None => Throw MissingSchema
  | Some schemas =>
      let validated := validateSchemas schemas in
      p <- initializeProvider provider ;;
      Ok {| schemas := validated;
            address := address;
            provider := p;
            ipfsGateway :=
              match config with
              | Some c =>
                  match config_ipfsGateway c with
                  | Some g =>
                      if String.eqb g "" then defaultConfig_ipfsGateway
                      else convertIPFSGatewayUrl g
                  | None => defaultConfig_ipfsGateway
                  end
              | None => defaultConfig_ipfsGateway
              end |}
  end.

Definition getAddressAndProvider (this : Options)
  : result (string * ProviderWrapper) :=
  match address this with
  | None => Throw MissingAddress
  | Some a =>
      if String.eqb a "" || negb (isAddress a) then Throw MissingAddress
      else
        match provider this with
        | None => Throw MissingProvider
        | Some p => Ok (a, p)
        end
  end.

Definition truthyStored (v : stored) : bool :=
  match v with
  | SRaw None => false
  | SRaw (Some _) => true
  | SPairs _ => true
  end.

(** The keys [getArrayValues] asks the store for: the element keys
    0..arrayLength-1 that [data] does not hold. *)
Definition arrayElementKeysOf (schema : ERC725JSONSchema)
    (data : object (string * stored)) (arrayLength : nat) : list string :=
  filter (fun arrayElementKey => negb (hasOwnProperty data arrayElementKey))
    (map (encodeArrayKey (key schema)) (seq 0 arrayLength)).

(** [data] maps a key to its key-value pair. *)
Definition getArrayValues (this : Options) (schema : ERC725JSONSchema)
    (data : object (string * stored)) : result (list (string * stored)) :=
  if negb (String.eqb (keyType schema) "Array") then Throw NotAnArraySchema
  else
    let results : list (string * stored) := [] in
    match get data (key schema) with
    | None => Ok results
    | Some value =>
        if negb (truthyStored (snd value)) then Ok results
        else
          arrayLength <- decodeKeyValue "Number" "uint256" (snd value)
                           (name schema) ;;
          let arrayElementKeys :=
            arrayElementKeysOf schema data (lengthOf arrayLength) in
          match
            match provider this with
            | Some p => provider_getAllData p (address this) arrayElementKeys
            | None => Throw TypeError
            end
          with
          | Ok arrayElements =>
              Ok (results ++ map (fun kv => (fst kv, SRaw (snd kv)))
                               arrayElements)%list
          | Throw _ => Ok results
          end
    end.

(** [{ [keySchema.key]: { key: keySchema.key, value } }] *)
Definition dataKeyValueOf (keySchema : ERC725JSONSchema) (v : stored)
  : object (string * stored) :=
  [(key keySchema, (key keySchema, v))].

Definition getDataSingle (this : Options) (data : string) : result value :=
  keySchema <- getSchemaElement (schemas this) data ;;
  rawData <- match provider this with
             | Some p => provider_getData p (address this) (key keySchema)
             | None => Ok None
             end ;;
  if isArrayKeyType keySchema then
    let dataKeyValue := dataKeyValueOf keySchema (SRaw rawData) in
    arrayValues <- getArrayValues this keySchema dataKeyValue ;;
    if (0 <? List.length arrayValues)%nat then
      decodeKey keySchema
        (SPairs (arrayValues ++ [(key keySchema, SRaw rawData)])%list)
    else Ok (VArray [])
  else decodeKey keySchema (SRaw rawData).

(** [tmpData[k]], [undefined] read as an unset raw value. *)
Definition lookupStored (tmpData : object stored) (k : string) : stored :=
  match get tmpData k with
  | Some s => s
  | None => SRaw None
  end.

(** The loop of [getDataMultiple] over the array schemas. *)
Fixpoint assembleArrays (this : Options)
    (arraySchemas : list ERC725JSONSchema) (tmpData : object stored)
  : result (object stored) :=
  match arraySchemas with
  | [] => Ok tmpData
  | keySchema :: rest =>
      let dataKeyValue :=
        dataKeyValueOf keySchema (lookupStored tmpData (key keySchema)) in
      arrayValues <- getArrayValues this keySchema dataKeyValue ;;
      if (0 <? List.length arrayValues)%nat then
        assembleArrays this rest
          (set tmpData (key keySchema)
             (SPairs
                (arrayValues ++
                 [(key keySchema, lookupStored tmpData (key keySchema))])%list))
      else assembleArrays this rest tmpData
  end.

(** [keyNames.map(...)]: the key of the descriptor of every name. *)
Definition keyHashesOf (this : Options) (keyNames : list string)
  : result (list string) :=
  mapM (fun keyName =>
          schemaElement <- getSchemaElement (schemas this) keyName ;;
          Ok (key schemaElement))
    keyNames.

(** [allRawData.reduce(...)]: the raw data by key. *)
Definition tmpDataOf (allRawData : list (string * raw)) : object stored :=
  fold_left (fun accumulator current =>
               set accumulator (fst current) (SRaw (snd current)))
    allRawData [].

Definition getDataMultiple (this : Options) (keyNames : list string)
  : result (object value) :=
  keyHashes <- keyHashesOf this keyNames ;;
  allRawData <- match provider this with
                | Some p => provider_getAllData p (address this) keyHashes
                | None => Throw TypeError
                end ;;
  let tmpData := tmpDataOf allRawData in
  let arraySchemas := filter isArrayKeyType (schemas this) in
  tmpData <- assembleArrays this arraySchemas tmpData ;;
  lib_decodeData tmpData (schemas this).

Definition getData (this : Options) (keyOrKeys : keyOrKeysArg)
  : result getDataResult :=
  _ <- getAddressAndProvider this ;;
  let allNames := map name (schemas this) in
  match keyOrKeys with
  | KUndefined => r <- getDataMultiple this allNames ;; Ok (Multiple r)
  | KString s =>
      if String.eqb s "" then
        r <- getDataMultiple this allNames ;; Ok (Multiple r)
      else r <- getDataSingle this s ;; Ok (Single r)
  | KArray l => r <- getDataMultiple this l ;; Ok (Multiple r)
  end.

Definition patchIPFSUrlsIfApplicable (this : Options) (receivedData : value)
  : value :=
  match receivedData with
  | VUrl u =>
      if negb (String.eqb (url u) "")
         && negb (indexOf "ipfs://" (url u) =? -1)%Z
      then VUrl {| hashFunction := hashFunction u;
                   hash := hash u;
                   url := replace "ipfs://" (ipfsGateway this) (url u) |}
      else receivedData
  | _ => receivedData
  end.

(** [dataEntry.url], [dataEntry.hash], [dataEntry.hashFunction]:
    [undefined] on a value that is not an external reference. *)
Definition urlOf (v : value) : option string :=
  match v with VUrl u => Some (url u) | _ => None end.
Definition hashOf (v : value) : option bytes :=
  match v with VUrl u => Some (hash u) | _ => None end.
Definition hashFunctionOf (v : value) : option string :=
  match v with VUrl u => Some (hashFunction u) | _ => None end.

(** The accumulator handed from one call of the [reduce] callback to the
    next: the initial object literal, or the promise an earlier call
    returned.  A promise is an object too: it has own properties, and it
    settles one way. *)
Inductive accumulator : Type :=
| AccObject (o : object entry)
| AccPromise (own : object entry) (settled : result (object entry)).

(** [accumulator[key] = v] *)
Definition assign (acc : accumulator) (k : string) (v : entry) : accumulator :=
  match acc with
  | AccObject o => AccObject (set o k v)
  | AccPromise own settled => AccPromise (set own k v) settled
  end.

(** [return accumulator] in an async function: the promise of the call
    is fulfilled with an object, and takes the state of a promise. *)
Definition returnAsync (acc : accumulator) : accumulator :=
  match acc with
  | AccObject o => AccPromise [] (Ok o)
  | AccPromise _ settled => AccPromise [] settled
  end.

(** A throw in an async function: the promise of the call is rejected. *)
Definition throwAsync (e : error) : accumulator := AccPromise [] (Throw e).

(** [await acc] *)
Definition await (acc : accumulator) : result (object entry) :=
  match acc with
  | AccObject o => Ok o
  | AccPromise _ settled => settled
  end.

(** [const { url } = this.patchIPFSUrlsIfApplicable(dataEntry)]: what
    [fetch] is called with. *)
Definition fetchTarget (this : Options) (dataEntry : value) : option string :=
  urlOf (patchIPFSUrlsIfApplicable this dataEntry).

(** The [try] block of the callback: the fetch and the read of the
    response. *)
Definition receiveData (this : Options) (dataEntry : value) : result content :=
  let u := fetchTarget this dataEntry in
  match fetch u with
  | None => Throw (FetchError u)
  | Some response =>
      match hashFunctionOf dataEntry with
      | Some f =>
          if String.eqb f KECCAK256_BYTES
          then Ok (Uint8Array (arrayBuffer response))
          else match parsedJson response with
               | Some j => Ok (Json j)
               | None => Throw SyntaxError
               end
      | None =>
          match parsedJson response with
          | Some j => Ok (Json j)
          | None => Throw SyntaxError
          end
      end
  end.

(** The callback of the [reduce]. *)
Definition reduceCallback (this : Options) (acc : accumulator)
    (kv : string * value) : accumulator :=
  let '(k, dataEntry) := kv in
  if negb (truthy dataEntry) then
    returnAsync (assign acc k (Decoded VNull))
  else
    match receiveData this dataEntry with
    | Throw e => throwAsync e
    | Ok receivedData =>
        returnAsync
          (assign acc k
             (if isDataAuthentic receivedData (hashOf dataEntry)
                   (hashFunctionOf dataEntry)
              then Fetched receivedData
              else Decoded VNull))
    end.

Definition isExternalContent (keySchema : ERC725JSONSchema) : bool :=
  let c := toLowerCase (valueContent keySchema) in
  String.eqb c "jsonurl" || String.eqb c "asseturl".

(** [Array.prototype.filter] with a predicate that may throw. *)
Fixpoint filterM {A} (f : A -> result bool) (l : list A) : result (list A) :=
  match l with
  | [] => Ok []
  | a :: l' =>
      b <- f a ;;
      rest <- filterM f l' ;;
      Ok (if b then a :: rest else rest)
  end.

(** The value of the [reduce], before it is awaited. *)
Definition getDataFromExternalSources (this : Options)
    (dataFromChain : object value) : result accumulator :=
  entries <- filterM (fun kv =>
                        keySchema <- getSchemaElement (schemas this) (fst kv) ;;
                        Ok (isExternalContent keySchema))
               dataFromChain ;;
  Ok (fold_left (reduceCallback this) entries (AccObject [])).

Definition fetchData (this : Options) (keyOrKeys : keyOrKeysArg)
  : result fetchDataResult :=
  let keys :=
    match keyOrKeys with
    | KString s => if String.eqb s "" then keyOrKeys else KArray [s]
    | _ => keyOrKeys
    end in
  dataFromChain <- getData this keys ;;
  match dataFromChain with
  | Single _ => Throw TypeError  (* [keys] is never a non-empty string *)
  | Multiple dataFromChain =>
      promise <- getDataFromExternalSources this dataFromChain ;;
      dataFromExternalSources <- await promise ;;
      let results :=
        spread (map (fun kv => (fst kv, Decoded (snd kv))) dataFromChain)
          dataFromExternalSources in
      match keyOrKeys with
      | KString s =>
          match get results s with
          | Some r => Ok (FetchedSingle r)
          | None => Ok (FetchedSingle (Decoded VNull))
          end
      | _ => Ok (FetchedMultiple results)
      end
  end.

Definition encodeData (this : Options) (data : object value)
    (schemas' : option (list ERC725JSONSchema)) : result (object stored) :=
  lib_encodeData data
    (map Some (schemas this) ++
     match schemas' with
     | Some l => map Some l
     | None => [None]
     end)%list.

Definition decodeData (this : Options) (data : object stored)
  : result (object value) :=
  lib_decodeData data (schemas this).

End Facade.

(** ** Predicates the properties are stated with *)

(** [l1] is [l2] with some elements left out, the others in their order. *)
Inductive Subsequence {A : Type} : list A -> list A -> Prop :=
| Subsequence_nil : Subsequence [] []
| Subsequence_skip (a : A) (l1 l2 : list A) :
    Subsequence l1 l2 -> Subsequence l1 (a :: l2)
| Subsequence_keep (a : A) (l1 l2 : list A) :
    Subsequence l1 l2 -> Subsequence (a :: l1) (a :: l2).

Fixpoint distinct (l : list string) : bool :=
  match l with
  | [] => true
  | k :: l' => negb (existsb (String.eqb k) l') && distinct l'
  end.

Fixpoint distinctBytes (l : list bytes) : bool :=
  match l with
  | [] => true
  | k :: l' => negb (existsb (bytesEqb k) l') && distinctBytes l'
  end.

(** A replacement text without a dollar sign stands for itself. *)
Fixpoint plainReplacement (r : string) : bool :=
  match r with
  | EmptyString => true
  | String c r' => negb (Ascii.eqb c "$") && plainReplacement r'
  end.

Section Shapes.
Context {lib : Collaborators} {hf : HashFunctions}.

(** The shape a value must have under a layout: what [encodeKeyValue]
    checks. *)
Definition shapeOkAt (l : layout) (v : value) : bool :=
  match l, v with
  | LNumber, VNumber n => (0 <=? n)%Z && (n <? 2 ^ 256)%Z
  | LString, VString _ => true
  | LBytes, VBytes _ => true
  | LUrl, VUrl u =>
      match selectorOf (hashFunction u) with
      | Some selector =>
          (List.length selector =? 4)%nat && (List.length (hash u) =? 32)%nat
      | None => false
      end
  | _, _ => false
  end.

(** A combination with a layout of the model and a value of its shape:
    a sequence of values for an Array descriptor, one value otherwise. *)
Definition shapeOk (schema : ERC725JSONSchema) (v : value) : bool :=
  match layoutOf (valueContent schema) (valueType schema) with
  | None => false
  | Some l =>
      if isArrayKeyType schema then
        match v with
        | VArray vs =>
            forallb (shapeOkAt l) vs
            && (Z.of_nat (List.length vs) <? 2 ^ 256)%Z
        | _ => false
        end
      else shapeOkAt l v
  end.

(** Section 4.1: the element keys of an array are distinct from one
    another and from the array's own key, over the indices in use. *)
Definition arrayKeysDistinct (schema : ERC725JSONSchema) (v : value) : bool :=
  match v with
  | VArray vs =>
      distinct (key schema
                :: map (encodeArrayKey (key schema)) (seq 0 (List.length vs)))
  | _ => true
  end.

(** No two hash functions of the table share a selector. *)
Definition selectorsDistinct : bool :=
  distinctBytes (map snd HASH_FUNCTIONS).

End Shapes.

(** ** A concrete setting: a toy key derivation and digest, a store held in
    a table, a gateway and two documents behind it *)

Module Sample.

Definition pad32 (bs : bytes) : bytes := firstn 32 (bs ++ repeat x00 32).

Definition digest (c : content) : bytes :=
  match c with
  | Uint8Array b => pad32 b
  | Json (JString s) => pad32 (list_byte_of_string s)
  | Json _ => pad32 []
  end.

Definition documents : object Response :=
  [ ("https://gw/ipfs/QmA",
     {| arrayBuffer := list_byte_of_string "A";
        parsedJson := Some (JString "A") |});
    ("https://gw/ipfs/QmB",
     {| arrayBuffer := list_byte_of_string "B";
        parsedJson := Some (JString "B") |});
    ("https://example.com/?next=https://gw/ipfs/QmA",
     {| arrayBuffer := list_byte_of_string "page";
        parsedJson := Some (JString "page") |}) ].

#[export] Instance lib : Collaborators := {|
  encodeKeyName := fun n => "0x" ++ n;
  encodeArrayKey := fun k index => k ++ String (ascii_of_nat (48 + index)) "";
  convertIPFSGatewayUrl := fun g => g;
  isAddress := hasScheme "0x";
  hashData := fun f c =>
    if String.eqb f KECCAK256_UTF8 || String.eqb f KECCAK256_BYTES
    then Some (digest c) else None;
  fetch := fun u =>
    match u with
    | Some u => get documents u
    | None => None
    end;
|}.

Definition keccak256_utf8_selector : bytes := [x6f; x35; x7c; x6a].
Definition keccak256_bytes_selector : bytes := [x80; x19; xf9; xb1].

#[export] Instance hf : HashFunctions := {|
  HASH_FUNCTIONS := [ (KECCAK256_UTF8, keccak256_utf8_selector);
                      (KECCAK256_BYTES, keccak256_bytes_selector) ];
|}.

Definition schemaOf (n keyType valueType valueContent : string)
  : ERC725JSONSchema :=
  {| name := n; key := "0x" ++ n; keyType := keyType;
     valueType := valueType; valueContent := valueContent |}.

Definition MyValue := schemaOf "MyValue" "Singleton" "string" "String".
Definition Count := schemaOf "Count" "Singleton" "uint256" "Number".
Definition ProfileA := schemaOf "A" "Singleton" "bytes" "JSONURL".
Definition ProfileB := schemaOf "B" "Singleton" "bytes" "JSONURL".
Definition ProfileC := schemaOf "C" "Singleton" "bytes" "ASSETURL".
Definition Items := schemaOf "Items[]" "Array" "string" "String".
Definition things := schemaOf "Things[]" "array" "string" "String".
(** A descriptor whose key is not the key of its name. *)
Definition Stale : ERC725JSONSchema :=
  {| name := "Stale"; key := "0xOther"; keyType := "Singleton";
     valueType := "string"; valueContent := "String" |}.

(** A store held in a table; [rejects] tells the batched reads the
    store refuses. *)
Definition storeProvider (store : object bytes)
    (rejects : list string -> bool) : ProviderWrapper :=
  {| provider_getData := fun _ k => Ok (get store k);
     provider_getAllData := fun _ keys =>
       if rejects keys then Throw (StoreError "rejected")
       else Ok (map (fun k => (k, get store k)) keys) |}.

(** The packed bytes of an external reference. *)
Definition packed (selector hash : bytes) (u : string) : bytes :=
  (selector ++ hash ++ list_byte_of_string u)%list.

Definition referenceTo (doc u : string) : bytes :=
  packed keccak256_utf8_selector (digest (Json (JString doc))) u.

(** The reference those bytes decode to. *)
Definition reference (doc u : string) : URLDataWithHash :=
  {| hashFunction := KECCAK256_UTF8;
     hash := digest (Json (JString doc));
     url := u |}.

Definition instanceOf (schemas : list ERC725JSONSchema)
    (store : object bytes) (rejects : list string -> bool) : result Options :=
  constructor (Some schemas) (Some "0xContract")
    (ProviderWithRequest (storeProvider store rejects))
    (Some {| config_ipfsGateway := Some "https://gw/ipfs/" |}).

Definition unwrap (r : result Options) : Options :=
  match r with
  | Ok o => o
  | Throw _ =>
      {| schemas := []; address := None; provider := None; ipfsGateway := "" |}
  end.

Definition never (_ : list string) : bool := false.

(** Three descriptors supplied, one of them stale. *)
Definition registered : Options :=
  unwrap (instanceOf [MyValue; Stale; Items] [] never).

(** Two external references, both authentic. *)
Definition twoProfiles : Options :=
  unwrap (instanceOf [MyValue; ProfileA; ProfileB]
    [ ("0xMyValue", list_byte_of_string "hello");
      ("0xA", referenceTo "A" "ipfs://QmA");
      ("0xB", referenceTo "B" "ipfs://QmB") ] never).

(** The reference of B carries the hash of another document; the one of
    C names a hash function the table does not know. *)
Definition unauthenticated : Options :=
  unwrap (instanceOf [ProfileA; ProfileB; ProfileC]
    [ ("0xA", referenceTo "A" "ipfs://QmA");
      ("0xB", referenceTo "not B" "ipfs://QmB");
      ("0xC", packed [x00; x00; x00; x00] (digest (Json (JString "A")))
                "ipfs://QmA") ] never).

(** The document of B is stored with the hash of another document; in
    [unreachable] its url is one the fetch fails on. *)
Definition mismatching : Options :=
  unwrap (instanceOf [ProfileA; ProfileB]
    [ ("0xA", referenceTo "A" "ipfs://QmA");
      ("0xB", referenceTo "not B" "ipfs://QmB") ] never).
Definition unreachable : Options :=
  unwrap (instanceOf [ProfileA; ProfileB]
    [ ("0xA", referenceTo "A" "ipfs://QmA");
      ("0xB", referenceTo "B" "ipfs://QmGone") ] never).

(** A reference whose url has the https scheme and carries an ipfs url
    in its query. *)
Definition redirecting : Options :=
  unwrap (instanceOf [ProfileA]
    [ ("0xA", referenceTo "page" "https://example.com/?next=ipfs://QmA") ]
    never).

(** An array of two strings; in [itemsRejected] the store refuses the
    batched read of the element keys. *)
Definition itemsStore : object bytes :=
  [ ("0xMyValue", list_byte_of_string "hello");
    ("0xItems[]", encodeUint 32 2);
    ("0xItems[]0", list_byte_of_string "a");
    ("0xItems[]1", list_byte_of_string "b") ].
Definition items : Options :=
  unwrap (instanceOf [MyValue; Items] itemsStore never).
Definition itemsRejected : Options :=
  unwrap (instanceOf [MyValue; Items] itemsStore
            (existsb (String.eqb "0xItems[]0"))).
Definition itemsUnset : Options :=
  unwrap (instanceOf [MyValue; Count; Items]
            [ ("0xMyValue", list_byte_of_string "hello") ] never).
(** The same array under a descriptor whose keyType is written 'array'. *)
Definition lowercase : Options :=
  unwrap (instanceOf [MyValue; things]
    [ ("0xMyValue", list_byte_of_string "hello");
      ("0xThings[]", encodeUint 32 1);
      ("0xThings[]0", list_byte_of_string "a") ] never).

End Sample.

(** ** The facade, continued: [getOwner], [isValidSignature] and the
    permissions of [src/index.ts] *)

(** The test of the filter of [getDataFromExternalSources], by name. *)
Definition external (this : Options) (kv : string * value) : result bool :=
  keySchema <- getSchemaElement (schemas this) (fst kv) ;;
  Ok (isExternalContent keySchema).

(** What these methods call outside [src/index.ts]. *)
Class Network : Type := {
  (* provider.getOwner of the provider wrappers *)
  provider_getOwner : ProviderWrapper -> string -> result string;
  (* ./lib/isValidSignature *)
  lib_isValidSignature :
    string -> string -> string -> ProviderWrapper -> result bool;
}.

Section Owner.
Context {lib : Collaborators} {net : Network}.

(** [_address || address] *)
Definition orElse (a : option string) (b : string) : string :=
  match a with
  | Some a => if String.eqb a "" then b else a
  | None => b
  end.

Definition getOwner (this : Options) (_address : option string)
  : result string :=
  ap <- getAddressAndProvider this ;;
  let '(address, provider) := ap in
  provider_getOwner provider (orElse _address address).

Definition isValidSignature (this : Options) (messageOrHash signature : string)
  : result bool :=
  match address this with
  | None => Throw MissingAddress
  | Some a =>
      if String.eqb a "" || negb (isAddress a) then Throw MissingAddress
      else
        match provider this with
        | None => Throw MissingProvider
        | Some p => lib_isValidSignature messageOrHash signature a p
        end
  end.

End Owner.

(** A JavaScript number as the permissions meet it: an integer a double
    holds exactly, NaN, or a sum that left the range of exact integers
    (the double rounds it; the model does not follow its value). *)
Inductive number : Type :=
| Exact (z : Z)
| NotANumber
| Beyond.

(** web3-utils.  [hexToNumber] returns a falsy argument as it is: [None]
    stands for [undefined], in and out. *)
Class Web3Utils : Type := {
  hexToNumber : option string -> result (option Z);
  toHex : number -> result string;
  leftPad : string -> nat -> string;
}.

(** The tables of ./lib/constants: the hex string of every permission, in
    the order of the object's keys, and the hex string of all of them. *)
Class LSP6 : Type := {
  LSP6_DEFAULT_PERMISSIONS : object string;
  LSP6_ALL_PERMISSIONS : string;
}.

(** [previous + x] for what [hexToNumber] returned. *)
Definition plus (previous : number) (x : option Z) : number :=
  match previous, x with
  | Exact a, Some b =>
      if (Z.abs b <=? 2 ^ 53)%Z && (Z.abs (a + b) <=? 2 ^ 53)%Z
      then Exact (a + b) else Beyond
  | Beyond, Some _ => Beyond
  | _, _ => NotANumber
  end.

(** ToInt32 of an exact integer; of [undefined] it is 0. *)
Definition toInt32 (x : option Z) : Z :=
  match x with
  | Some z => ((z + 2 ^ 31) mod 2 ^ 32 - 2 ^ 31)%Z
  | None => 0%Z
  end.

(** [a & b] *)
Definition bitAnd (a b : option Z) : Z := Z.land (toInt32 a) (toInt32 b).

(** [n === d] for the number [n] and what [hexToNumber] returned. *)
Definition strictEq (n : Z) (d : option Z) : bool :=
  match d with
  | Some z => (n =? z)%Z
  | None => false
  end.

Section Permissions.
Context {web3 : Web3Utils} {lsp6 : LSP6}.

(** [permissions] holds a boolean under each of its keys. *)
Definition encodePermissions (permissions : object bool) : result string :=
  result <-
    fold_left
      (fun acc k =>
         previous <- acc ;;
         match get permissions k with
         | Some true =>
             n <- hexToNumber (get LSP6_DEFAULT_PERMISSIONS k) ;;
             Ok (plus previous n)
         | _ => Ok previous
         end)
      (map fst permissions) (Ok (Exact 0)) ;;
  hex <- toHex result ;;
  Ok (leftPad hex 64).

Definition noPermissions : object bool :=
  [ ("CHANGEOWNER", false); ("CHANGEPERMISSIONS", false);
    ("ADDPERMISSIONS", false); ("SETDATA", false); ("CALL", false);
    ("STATICCALL", false); ("DELEGATECALL", false); ("DEPLOY", false);
    ("TRANSFERVALUE", false); ("SIGN", false) ].

Definition decodePermissions (permissionHex : string) : result (object bool) :=
  let result := noPermissions in
  let permissionsToTest := map fst LSP6_DEFAULT_PERMISSIONS in
  if String.eqb permissionHex LSP6_ALL_PERMISSIONS then
    Ok (fold_left (fun result testPermission => set result testPermission true)
          permissionsToTest result)
  else
    passedPermissionDecimal <- hexToNumber (Some permissionHex) ;;
    fold_left
      (fun acc testPermission =>
         result <- acc ;;
         decimalTestPermission <-
           hexToNumber (get LSP6_DEFAULT_PERMISSIONS testPermission) ;;
         let isPermissionIncluded :=
           strictEq (bitAnd passedPermissionDecimal decimalTestPermission)
             decimalTestPermission in
         Ok (set result testPermission isPermissionIncluded))
      permissionsToTest (Ok result).

End Permissions.

(** Whether [permissions] grants [k]: [permissions[k]] read as a boolean. *)
Definition granted (permissions : object bool) (k : string) : bool :=
  match get permissions k with
  | Some b => b
  | None => false
  end.

(** The sum of the powers of two of a list of bits. *)
Fixpoint sumBits (bs : list Z) : Z :=
  match bs with
  | [] => 0%Z
  | b :: bs' => (2 ^ b + sumBits bs')%Z
  end.

(** ** A concrete setting for the owner and the permissions: a hex printer
    and reader, and the ten permissions on the ten low bits *)

Module SampleLSP6.

#[export] Instance net : Network := {|
  provider_getOwner := fun _ a => Ok ("owner of " ++ a);
  lib_isValidSignature := fun _ signature _ _ => Ok (String.eqb signature "0xsigned");
|}.

Definition hexDigit (n : nat) : ascii :=
  match n with
  | 0 => "0" | 1 => "1" | 2 => "2" | 3 => "3" | 4 => "4" | 5 => "5"
  | 6 => "6" | 7 => "7" | 8 => "8" | 9 => "9" | 10 => "a" | 11 => "b"
  | 12 => "c" | 13 => "d" | 14 => "e" | _ => "f"
  end%char%nat.

Definition digitValue (c : ascii) : option Z :=
  let n := nat_of_ascii c in
  if (48 <=? n)%nat && (n <=? 57)%nat then Some (Z.of_nat (n - 48))
  else if (97 <=? n)%nat && (n <=? 102)%nat then Some (Z.of_nat (n - 87))
  else if (65 <=? n)%nat && (n <=? 70)%nat then Some (Z.of_nat (n - 55))
  else None.

(** The [w] low hex digits of [n], the lowest first. *)
Fixpoint hexDigits (w : nat) (n : Z) : list ascii :=
  match w with
  | O => []
  | S w' => hexDigit (Z.to_nat (n mod 16)) :: hexDigits w' (n / 16)
  end.

Fixpoint stripZeros (l : list ascii) : list ascii :=
  match l with
  | c :: (_ :: _) as l' => if Ascii.eqb c "0" then stripZeros l' else l
  | _ => l
  end.

Definition readHex (l : list ascii) : option Z :=
  fold_left
    (fun acc c =>
       match acc, digitValue c with
       | Some a, Some d => Some (a * 16 + d)%Z
       | _, _ => None
       end)
    l (Some 0%Z).

Definition print (n : Z) : string :=
  "0x" ++ string_of_list_ascii (stripZeros (rev (hexDigits 14 n))).

Definition pad (s : string) (chars : nat) : string :=
  match stripPrefix "0x" s with
  | Some digits =>
      "0x" ++ string_of_list_ascii (repeat "0"%char (chars - String.length digits))
           ++ digits
  | None =>
      string_of_list_ascii (repeat "0"%char (chars - String.length s)) ++ s
  end.

#[export] Instance web3 : Web3Utils := {|
  hexToNumber := fun value =>
    match value with
    | None => Ok None
    | Some s =>
        if String.eqb s "" then Ok None
        else
          match stripPrefix "0x" s with
          | Some (String c digits) =>
              match readHex (list_ascii_of_string (String c digits)) with
              | Some n =>
                  if (n <? 2 ^ 53)%Z then Ok (Some n)
                  else Throw (DecodingError "more than 53 bits")
              | None => Throw (DecodingError "not a valid hex string")
              end
          | _ => Throw (DecodingError "not a valid hex string")
          end
    end;
  toHex := fun n =>
    match n with
    | Exact z =>
        if (0 <=? z)%Z && (z <? 2 ^ 53)%Z then Ok (print z)
        else Throw (EncodingError "not a safe integer")
    | _ => Throw (EncodingError "not a number")
    end;
  leftPad := pad;
|}.

Definition word (n : Z) : string := pad (print n) 64.

#[export] Instance lsp6 : LSP6 := {|
  LSP6_DEFAULT_PERMISSIONS :=
    [ ("CHANGEOWNER", word 1); ("CHANGEPERMISSIONS", word 2);
      ("ADDPERMISSIONS", word 4); ("SETDATA", word 8); ("CALL", word 16);
      ("STATICCALL", word 32); ("DELEGATECALL", word 64); ("DEPLOY", word 128);
      ("TRANSFERVALUE", word 256); ("SIGN", word 512) ];
  LSP6_ALL_PERMISSIONS :=
    "0xffffffffffffffffffffffffffffffffffffffffffffffffffffffffffffffff";
|}.

(** The bit of a permission of the table. *)
Definition bitOf (k : string) : Z :=
  match get LSP6_DEFAULT_PERMISSIONS k with
  | Some hex =>
      match hexToNumber (Some hex) with
      | Ok (Some n) => Z.log2 n
      | _ => 0%Z
      end
  | None => 0%Z
  end.

(** An instance without an address, one without a provider. *)
Definition noAddress : Options :=
  {| schemas := [Sample.MyValue]; address := None;
     provider := Some (Sample.storeProvider [] Sample.never);
     ipfsGateway := "https://gw/ipfs/" |}.
Definition noProvider : Options :=
  {| schemas := [Sample.MyValue]; address := Some "0xContract";
     provider := None; ipfsGateway := "https://gw/ipfs/" |}.

End SampleLSP6.

(** * Properties *)

(** ** The result monad *)

Lemma bind_Ok {A B} (r : result A) (k : A -> result B) (b : B) :
  bind r k = Ok b -> exists a, r = Ok a /\ k a = Ok b.
Proof.
  destruct r as [a|e]; simpl; intros H.
  - exists a. split; [reflexivity | exact H].
  - discriminate H.
Qed.

Lemma bind_Throw {A B} (r : result A) (k : A -> result B) (e : error) :
  r = Throw e -> bind r k = Throw e.
Proof. intros ->. reflexivity. Qed.

Ltac inv_bind H :=
  let a := fresh "a" in
  let Ha := fresh "Ha" in
  apply bind_Ok in H; destruct H as [a [Ha H]].

(** ** Registration: [validateSchemas] and the constructor *)

Section Registration.
Context {lib : Collaborators} {hf : HashFunctions}.

Lemma validateSchemas_In (input : list ERC725JSONSchema) (d : ERC725JSONSchema) :
  In d (validateSchemas input) <->
  In d input /\ key d = encodeKeyName (name d).
Proof.
  unfold validateSchemas. rewrite filter_In. simpl.
  rewrite String.eqb_eq. reflexivity.
Qed.

Lemma validateSchemas_Subsequence (input : list ERC725JSONSchema) :
  Subsequence (validateSchemas input) input.
Proof.
  induction input as [|d input IH]; simpl.
  - constructor.
  - destruct (String.eqb (key d) (encodeKeyName (name d))).
    + now apply Subsequence_keep.
    + now apply Subsequence_skip.
Qed.

Lemma filter_idempotent {A} (f : A -> bool) (l : list A) :
  filter f (filter f l) = filter f l.
Proof.
  induction l as [|a l IH]; simpl; [reflexivity|].
  destruct (f a) eqn:E; simpl; [rewrite E; now f_equal | exact IH].
Qed.

Lemma validateSchemas_idempotent (input : list ERC725JSONSchema) :
  validateSchemas (validateSchemas input) = validateSchemas input.
Proof. apply filter_idempotent. Qed.

Lemma validateSchemas_app (l1 l2 : list ERC725JSONSchema) :
  validateSchemas (l1 ++ l2) = (validateSchemas l1 ++ validateSchemas l2)%list.
Proof. apply filter_app. Qed.

Lemma getSchemaElementIn_In (l : list (option ERC725JSONSchema)) (k : string)
    (d : ERC725JSONSchema) :
  getSchemaElementIn l k = Ok d ->
  In (Some d) l /\ (key d = k \/ name d = k).
Proof.
  induction l as [|[e|] l IH]; simpl; intros H; try discriminate.
  destruct (String.eqb (key e) k || String.eqb (name e) k) eqn:E.
  - injection H as ->. split; [now left|].
    apply orb_true_iff in E. now rewrite !String.eqb_eq in E.
  - destruct (IH H) as [Hin Hk]. split; [now right | exact Hk].
Qed.

Lemma getSchemaElement_In (l : list ERC725JSONSchema) (k : string)
    (d : ERC725JSONSchema) :
  getSchemaElement l k = Ok d -> In d l /\ (key d = k \/ name d = k).
Proof.
  unfold getSchemaElement. intros H.
  destruct (getSchemaElementIn_In _ _ _ H) as [Hin Hk]. split; [|exact Hk].
  apply in_map_iff in Hin. destruct Hin as [d' [Hd Hin]]. now injection Hd as <-.
Qed.

(** A name or key no descriptor answers to: the only failure of a
    resolution in a list of descriptors. *)
Lemma getSchemaElement_Throw (l : list ERC725JSONSchema) (k : string) (e : error) :
  getSchemaElement l k = Throw e -> e = SchemaNotFoundError k.
Proof.
  unfold getSchemaElement.
  induction l as [|d l IH]; simpl; intros H.
  - now injection H as <-.
  - destruct (String.eqb (key d) k || String.eqb (name d) k); [discriminate|].
    exact (IH H).
Qed.

(** C4: the constructor keeps exactly the descriptors whose key is the
    key derived from their name, in their order; every later resolution
    answers with a kept descriptor, and the instance is the one built
    from any other input with the same kept descriptors, the input
    stripped of the rejected descriptors among them: no operation of the
    instance can tell that a rejected descriptor was supplied. *)
Theorem constructor_registers_valid_schemas
    (input : list ERC725JSONSchema) (address : option string)
    (provider : providerArg) (config : option ERC725Config) (this : Options) :
  constructor (Some input) address provider config = Ok this ->
  (forall d, In d (schemas this) <->
             In d input /\ key d = encodeKeyName (name d)) /\
  Subsequence (schemas this) input /\
  (forall d, In d input -> key d <> encodeKeyName (name d) ->
     ~ In d (schemas this) /\
     forall k, getSchemaElement (schemas this) k <> Ok d) /\
  (forall k d, getSchemaElement (schemas this) k = Ok d ->
     In d input /\ key d = encodeKeyName (name d)) /\
  (forall input', validateSchemas input' = validateSchemas input ->
     constructor (Some input') address provider config = Ok this) /\
  constructor (Some (validateSchemas input)) address provider config = Ok this.
Proof.
  intros H. unfold constructor in H. inv_bind H. injection H as <-. simpl.
  assert (Hres : forall k d, getSchemaElement (validateSchemas input) k = Ok d ->
                   In d input /\ key d = encodeKeyName (name d)).
  { intros k d Hk. apply getSchemaElement_In in Hk.
    now apply validateSchemas_In. }
  assert (Hsame : forall input', validateSchemas input' = validateSchemas input ->
            constructor (Some input') address provider config =
            Ok {| schemas := validateSchemas input; address := address;
                  provider := a;
                  ipfsGateway :=
                    match config with
                    | Some c =>
                        match config_ipfsGateway c with
                        | Some g =>
                            if String.eqb g "" then defaultConfig_ipfsGateway
                            else convertIPFSGatewayUrl g
                        | None => defaultConfig_ipfsGateway
                        end
                    | None => defaultConfig_ipfsGateway
                    end |}).
  { intros input' E. unfold constructor. rewrite Ha, E. reflexivity. }
  split; [intros d; apply validateSchemas_In|].
  split; [apply validateSchemas_Subsequence|].
  split.
  { intros d Hin Hk. split.
    - intros Hd. apply validateSchemas_In in Hd. tauto.
    - intros k Hr. apply Hres in Hr. tauto. }
  split; [exact Hres|].
  split; [exact Hsame|].
  apply Hsame, validateSchemas_idempotent.
Qed.

End Registration.

(** ** Reading: [getArrayValues], [getDataSingle], [getDataMultiple] *)

Section Reading.
Context {lib : Collaborators} {hf : HashFunctions}.

Lemma getArrayValues_guard (this : Options) (schema : ERC725JSONSchema)
    (data : object (string * stored)) :
  keyType schema <> "Array" ->
  getArrayValues this schema data = Throw NotAnArraySchema.
Proof.
  intros H. unfold getArrayValues.
  destruct (String.eqb (keyType schema) "Array") eqn:E; [|reflexivity].
  now apply String.eqb_eq in E.
Qed.

Lemma get_dataKeyValueOf (keySchema : ERC725JSONSchema) (v : stored) :
  get (dataKeyValueOf keySchema v) (key keySchema) = Some (key keySchema, v).
Proof. unfold dataKeyValueOf. simpl. now rewrite String.eqb_refl. Qed.

Lemma isArrayKeyType_Array (schema : ERC725JSONSchema) :
  keyType schema = "Array" -> isArrayKeyType schema = true.
Proof. unfold isArrayKeyType. now intros ->. Qed.

(** An unset length: nothing is asked of the store. *)
Lemma getArrayValues_unset (this : Options) (schema : ERC725JSONSchema) :
  keyType schema = "Array" ->
  getArrayValues this schema (dataKeyValueOf schema (SRaw None)) = Ok [].
Proof.
  intros H. unfold getArrayValues.
  rewrite H, get_dataKeyValueOf. reflexivity.
Qed.

(** A batched read of the element keys that fails. *)
Lemma getArrayValues_read_fails (this : Options) (p : ProviderWrapper)
    (schema : ERC725JSONSchema) (bs : bytes) (e : error) :
  provider this = Some p ->
  keyType schema = "Array" ->
  provider_getAllData p (address this)
    (arrayElementKeysOf schema (dataKeyValueOf schema (SRaw (Some bs)))
       (Z.to_nat (decodeUint bs))) = Throw e ->
  getArrayValues this schema (dataKeyValueOf schema (SRaw (Some bs))) = Ok [].
Proof.
  intros Hp Hk Hfail. unfold getArrayValues.
  rewrite Hk, get_dataKeyValueOf, Hp. simpl. now rewrite Hfail.
Qed.

Lemma assembleArrays_app (this : Options) (l1 l2 : list ERC725JSONSchema)
    (tmpData : object stored) :
  assembleArrays this (l1 ++ l2) tmpData =
  (t <- assembleArrays this l1 tmpData ;; assembleArrays this l2 t).
Proof.
  revert tmpData. induction l1 as [|a l1 IH]; intros tmpData; simpl.
  - reflexivity.
  - destruct (getArrayValues this a _) as [arrayValues|e]; simpl.
    + destruct (0 <? List.length arrayValues)%nat; apply IH.
    + reflexivity.
Qed.

(** An array schema with nothing assembled leaves [tmpData] as it is. *)
Lemma assembleArrays_empty (this : Options) (keySchema : ERC725JSONSchema)
    (rest : list ERC725JSONSchema) (tmpData : object stored) :
  getArrayValues this keySchema
    (dataKeyValueOf keySchema (lookupStored tmpData (key keySchema))) = Ok [] ->
  assembleArrays this (keySchema :: rest) tmpData =
  assembleArrays this rest tmpData.
Proof. intros H. simpl. now rewrite H. Qed.

(** C10: a registered descriptor whose keyType is 'array' up to case but
    not the string 'Array': [getData] on its name takes the array path,
    where the guard of [getArrayValues] throws, so the call fails, with
    that error whenever the instance has its address and provider and the
    store answers the read of the key. *)
Theorem getData_inexact_Array_keyType_throws
    (this : Options) (n : string) (d : ERC725JSONSchema) :
  getSchemaElement (schemas this) n = Ok d ->
  toLowerCase (keyType d) = "array" ->
  keyType d <> "Array" ->
  n <> "" ->
  (forall data, getArrayValues this d data = Throw NotAnArraySchema) /\
  isOk (getData this (KString n)) = false /\
  (forall a p rawData,
      getAddressAndProvider this = Ok (a, p) ->
      provider_getData p (address this) (key d) = Ok rawData ->
      getDataSingle this n = Throw NotAnArraySchema /\
      getData this (KString n) = Throw NotAnArraySchema).
Proof.
  intros Hres Hlow Hne Hn.
  assert (Hguard : forall data, getArrayValues this d data = Throw NotAnArraySchema)
    by (intros data; now apply getArrayValues_guard).
  assert (Harr : isArrayKeyType d = true)
    by (unfold isArrayKeyType; now rewrite Hlow).
  assert (Hsingle : isOk (getDataSingle this n) = false).
  { unfold getDataSingle. rewrite Hres. simpl.
    destruct (provider this) as [p|]; simpl.
    - destruct (provider_getData p (address this) (key d)); simpl; [|reflexivity].
      now rewrite Harr, Hguard.
    - now rewrite Harr, Hguard. }
  assert (Hstr : String.eqb n "" = false) by now apply String.eqb_neq.
  split; [exact Hguard|]. split.
  - unfold getData. destruct (getAddressAndProvider this); simpl; [|reflexivity].
    rewrite Hstr. destruct (getDataSingle this n); [discriminate | reflexivity].
  - intros a p rawData Hap Hread.
    assert (Hp : provider this = Some p).
    { unfold getAddressAndProvider in Hap.
      destruct (address this); [|discriminate].
      destruct (_ || _); [discriminate|].
      destruct (provider this); [|discriminate]. now injection Hap as _ ->. }
    assert (E : getDataSingle this n = Throw NotAnArraySchema).
    { unfold getDataSingle. rewrite Hres. simpl. rewrite Hp, Hread. simpl.
      now rewrite Harr, Hguard. }
    split; [exact E|].
    unfold getData. rewrite Hap. simpl. now rewrite Hstr, E.
Qed.

(** C6: when the batched read of an array's element keys fails,
    [getArrayValues] returns the empty list; [getDataSingle] on the
    array's name returns the empty sequence; and [getDataMultiple] goes
    on with the array schemas that follow and decodes the data it holds,
    which is what it does when the array has no element to assemble: the
    fault is not propagated. *)
Theorem array_read_failure_is_empty
    (this : Options) (p : ProviderWrapper) (A : ERC725JSONSchema)
    (bs : bytes) (e : error) :
  provider this = Some p ->
  keyType A = "Array" ->
  provider_getAllData p (address this)
    (arrayElementKeysOf A (dataKeyValueOf A (SRaw (Some bs)))
       (Z.to_nat (decodeUint bs))) = Throw e ->
  getArrayValues this A (dataKeyValueOf A (SRaw (Some bs))) = Ok [] /\
  (forall n,
      getSchemaElement (schemas this) n = Ok A ->
      provider_getData p (address this) (key A) = Ok (Some bs) ->
      getDataSingle this n = Ok (VArray [])) /\
  (forall keyNames keyHashes allRawData pre post tmpData,
      keyHashesOf this keyNames = Ok keyHashes ->
      provider_getAllData p (address this) keyHashes = Ok allRawData ->
      filter isArrayKeyType (schemas this) = (pre ++ A :: post)%list ->
      assembleArrays this pre (tmpDataOf allRawData) = Ok tmpData ->
      lookupStored tmpData (key A) = SRaw (Some bs) ->
      getDataMultiple this keyNames =
      (tmpData' <- assembleArrays this post tmpData ;;
       lib_decodeData tmpData' (schemas this))).
Proof.
  intros Hp Hk Hfail.
  pose proof (getArrayValues_read_fails this p A bs e Hp Hk Hfail) as Hempty.
  split; [exact Hempty|]. split.
  - intros n Hres Hread. unfold getDataSingle.
    rewrite Hres. simpl. rewrite Hp, Hread. simpl.
    rewrite (isArrayKeyType_Array _ Hk). now rewrite Hempty.
  - intros keyNames keyHashes allRawData pre post tmpData Hkeys Hall Hsplit Hpre Hlen.
    unfold getDataMultiple. rewrite Hkeys. simpl. rewrite Hp, Hall. simpl.
    rewrite Hsplit, assembleArrays_app, Hpre. simpl.
    rewrite Hlen, Hempty. reflexivity.
Qed.

Lemma getSchemaElement_none (l : list ERC725JSONSchema) (k : string) :
  (forall d, In d l -> key d <> k /\ name d <> k) ->
  getSchemaElement l k = Throw (SchemaNotFoundError k).
Proof.
  unfold getSchemaElement. induction l as [|d l IH]; simpl; intros H.
  - reflexivity.
  - destruct (H d (or_introl eq_refl)) as [Hk Hn].
    apply String.eqb_neq in Hk, Hn. rewrite Hk, Hn. simpl.
    apply IH. intros d' Hd'. apply H. now right.
Qed.

(** The first failure of the callback is the failure of the [map]. *)
Lemma mapM_first_Throw {A B} (f : A -> result B) (l : list A) :
  (exists a, In a l /\ isOk (f a) = false) ->
  exists a e, In a l /\ f a = Throw e /\ mapM f l = Throw e.
Proof.
  induction l as [|a l IH]; intros [a0 [Hin Hf]]; [destruct Hin|].
  simpl. destruct (f a) as [b|e] eqn:E.
  - destruct Hin as [->|Hin]; [rewrite E in Hf; discriminate|].
    destruct IH as [a1 [e [Hin1 [Hf1 Hm]]]]; [now exists a0|].
    exists a1, e. split; [now right|]. split; [exact Hf1|].
    simpl. now rewrite Hm.
  - exists a, e. split; [now left|]. now split.
Qed.

(** C3, as the code has it: when a requested name has no descriptor,
    the multi-key read resolves no name past it: [getDataMultiple]
    throws SchemaNotFoundError for such a name, and so does [getData] on
    the array of names; no mapping is returned, for any of the names. *)
Theorem getDataMultiple_unknown_name_aborts
    (this : Options) (keyNames : list string) :
  (exists n, In n keyNames /\
     forall d, In d (schemas this) -> key d <> n /\ name d <> n) ->
  exists n,
    In n keyNames /\
    getSchemaElement (schemas this) n = Throw (SchemaNotFoundError n) /\
    getDataMultiple this keyNames = Throw (SchemaNotFoundError n) /\
    (forall a p, getAddressAndProvider this = Ok (a, p) ->
       getData this (KArray keyNames) = Throw (SchemaNotFoundError n)).
Proof.
  intros [n0 [Hin Hnone]].
  apply getSchemaElement_none in Hnone.
  destruct (mapM_first_Throw
              (fun keyName =>
                 schemaElement <- getSchemaElement (schemas this) keyName ;;
                 Ok (key schemaElement)) keyNames) as [n [e [Hn [Hf Hm]]]].
  { exists n0. split; [exact Hin|]. now rewrite Hnone. }
  destruct (getSchemaElement (schemas this) n) as [d|e'] eqn:E; [discriminate|].
  simpl in Hf. injection Hf as ->.
  pose proof (getSchemaElement_Throw _ _ _ E) as ->.
  assert (Hmulti : getDataMultiple this keyNames = Throw (SchemaNotFoundError n)).
  { unfold getDataMultiple, keyHashesOf. now rewrite Hm. }
  exists n. split; [exact Hn|]. split; [exact E|]. split; [exact Hmulti|].
  intros a p Hap. unfold getData. rewrite Hap. simpl. now rewrite Hmulti.
Qed.

End Reading.

(** ** External references: [patchIPFSUrlsIfApplicable],
    [getDataFromExternalSources], [fetchData] *)

Section External.
Context {lib : Collaborators} {hf : HashFunctions}.

Lemma stripPrefix_app (p rest : string) : stripPrefix p (p ++ rest) = Some rest.
Proof.
  induction p as [|a p IH]; simpl; [reflexivity|].
  now rewrite Ascii.eqb_refl.
Qed.

Lemma splitOn_prefix (p rest : string) :
  splitOn p (p ++ rest) = Some (EmptyString, rest).
Proof.
  destruct (p ++ rest) as [|c s] eqn:E.
  - simpl. destruct p; [|discriminate]. simpl in E. now subst.
  - simpl. rewrite <- E, stripPrefix_app. reflexivity.
Qed.

Lemma GetSubstitution_plain (matched before after r : string) :
  plainReplacement r = true ->
  GetSubstitution matched before after r = r.
Proof.
  induction r as [|c r IH]; simpl; [reflexivity|].
  intros H. apply andb_true_iff in H. destruct H as [Hc Hr].
  apply negb_true_iff in Hc. rewrite Hc. now rewrite IH.
Qed.

(** X16: the gateway of an instance: the converted gateway of the
    configuration, the default gateway when there is none. *)
Lemma constructor_ipfsGateway (input : list ERC725JSONSchema)
    (address : option string) (provider : providerArg)
    (config : option ERC725Config) (this : Options) :
  constructor (Some input) address provider config = Ok this ->
  (forall g, config = Some {| config_ipfsGateway := Some g |} -> g <> "" ->
     ipfsGateway this = convertIPFSGatewayUrl g) /\
  (config = None \/ config = Some {| config_ipfsGateway := None |} ->
     ipfsGateway this = "https://cloudflare-ipfs.com/ipfs/").
Proof.
  intros H. unfold constructor in H. inv_bind H. injection H as <-. simpl.
  split.
  - intros g -> Hg. simpl. apply String.eqb_neq in Hg. now rewrite Hg.
  - now intros [-> | ->].
Qed.

(** A url in the ipfs scheme is fetched from the gateway, when the
    gateway has no dollar sign in it. *)
Lemma fetchTarget_ipfs_scheme (this : Options) (u : URLDataWithHash)
    (rest : string) :
  url u = "ipfs://" ++ rest ->
  plainReplacement (ipfsGateway this) = true ->
  fetchTarget this (VUrl u) = Some (ipfsGateway this ++ rest).
Proof.
  intros Hu Hplain. unfold fetchTarget, patchIPFSUrlsIfApplicable.
  rewrite Hu. unfold indexOf, replace.
  rewrite (splitOn_prefix "ipfs://" rest). simpl.
  now rewrite GetSubstitution_plain.
Qed.

(** A url in which 'ipfs://' does not occur is fetched as it is. *)
Lemma fetchTarget_without_ipfs (this : Options) (u : URLDataWithHash) :
  splitOn "ipfs://" (url u) = None ->
  fetchTarget this (VUrl u) = Some (url u).
Proof.
  intros H. unfold fetchTarget, patchIPFSUrlsIfApplicable, indexOf.
  rewrite H. simpl. rewrite andb_false_r. reflexivity.
Qed.

(** *** The accumulator of the reduce *)

Lemma reduceCallback_promise (this : Options) (acc : accumulator)
    (kv : string * value) :
  exists settled, reduceCallback this acc kv = AccPromise [] settled.
Proof.
  destruct kv as [k v]. unfold reduceCallback.
  destruct (negb (truthy v)).
  - destruct acc; simpl; eauto.
  - destruct (receiveData this v); [|unfold throwAsync; eauto].
    destruct acc; simpl; eauto.
Qed.

(** A call that is handed a promise writes to the promise and settles as
    the promise does, or throws. *)
Lemma reduceCallback_on_promise (this : Options) (own : object entry)
    (settled : result (object entry)) (kv : string * value) :
  reduceCallback this (AccPromise own settled) kv = AccPromise [] settled \/
  exists e, reduceCallback this (AccPromise own settled) kv
            = AccPromise [] (Throw e).
Proof.
  destruct kv as [k v]. unfold reduceCallback.
  destruct (negb (truthy v)); [now left|].
  destruct (receiveData this v) as [c|e]; [now left|].
  right. now exists e.
Qed.

Lemma reduce_on_promise (this : Options) (entries : list (string * value))
    (own : object entry) (settled : result (object entry)) :
  await (fold_left (reduceCallback this) entries (AccPromise own settled))
  = settled \/
  exists e, await (fold_left (reduceCallback this) entries
                     (AccPromise own settled)) = Throw e.
Proof.
  revert own settled. induction entries as [|kv entries IH]; intros own settled.
  - now left.
  - simpl. destruct (reduceCallback_on_promise this own settled kv) as [E|[e E]];
      rewrite E.
    + apply IH.
    + right. destruct (IH [] (Throw e)) as [H|H]; [now exists e | exact H].
Qed.

(** What the reduce settles to holds the property written by the first
    call, and no other. *)
Lemma reduce_first_entry_only (this : Options) (k : string) (v : value)
    (entries : list (string * value)) (o : object entry) :
  await (fold_left (reduceCallback this) ((k, v) :: entries) (AccObject []))
  = Ok o ->
  exists x, o = [(k, x)].
Proof.
  cbn [fold_left].
  destruct (reduceCallback_promise this (AccObject []) (k, v)) as [settled E].
  rewrite E. intros H.
  destruct (reduce_on_promise this entries [] settled) as [H'|[e H']];
    rewrite H' in H; [|discriminate].
  subst settled. revert E. unfold reduceCallback.
  destruct (negb (truthy v)); simpl.
  - intros E. injection E as <-. eauto.
  - destruct (receiveData this v); simpl; [|discriminate].
    intros E. injection E as <-. eauto.
Qed.


(** When every fetch succeeds the reduce is fulfilled: an unauthentic
    document is not an error. *)
Lemma reduce_no_failure (this : Options) (entries : list (string * value))
    (acc : accumulator) :
  (forall k v, In (k, v) entries -> truthy v = true ->
               isOk (receiveData this v) = true) ->
  isOk (await acc) = true ->
  isOk (await (fold_left (reduceCallback this) entries acc)) = true.
Proof.
  revert acc. induction entries as [|[k v] entries IH]; intros acc Hall Hacc;
    [exact Hacc|].
  simpl. apply IH; [intros k' v' Hin; apply (Hall k'); now right|].
  unfold reduceCallback. destruct (truthy v) eqn:Ht; simpl.
  - specialize (Hall k v (or_introl eq_refl) Ht).
    destruct (receiveData this v); [|discriminate].
    destruct acc; simpl; [reflexivity | exact Hacc].
  - destruct acc; simpl; [reflexivity | exact Hacc].
Qed.

(** The authentication law, for the entry the first call resolves: the
    fetched content when its digest is the stored hash, [null] when it is
    not or when the hash function is not supported. *)
Lemma reduceCallback_first_entry (this : Options) (k : string)
    (u : URLDataWithHash) (c : content) :
  receiveData this (VUrl u) = Ok c ->
  await (reduceCallback this (AccObject []) (k, VUrl u)) =
  Ok [(k, match hashData (hashFunction u) c with
          | Some d => if bytesEqb d (hash u) then Fetched c else Decoded VNull
          | None => Decoded VNull
          end)].
Proof.
  intros H. unfold reduceCallback. simpl. rewrite H. simpl.
  destruct (hashData (hashFunction u) c) as [d|]; [|reflexivity].
  now destruct (bytesEqb d (hash u)).
Qed.

(** [fetchData] hands [getData] an array of names or nothing, and gets
    a mapping. *)
Lemma getData_keys_Multiple (this : Options) (k : keyOrKeysArg) (v : value) :
  getData this
    match k with
    | KString s => if String.eqb s "" then k else KArray [s]
    | _ => k
    end <> Ok (Single v).
Proof.
  unfold getData. destruct (getAddressAndProvider this); simpl; [|discriminate].
  destruct k as [|s|l]; simpl.
  - destruct (getDataMultiple this _); discriminate.
  - destruct (String.eqb s "") eqn:E; simpl.
    + rewrite E. destruct (getDataMultiple this _); discriminate.
    + destruct (getDataMultiple this _); discriminate.
  - destruct (getDataMultiple this _); discriminate.
Qed.



(** X17: over a whole mapping: what [fetchData] returns for a list of
    names differs from the decoded on-chain data in one entry at most,
    however many external references the mapping holds. *)
Lemma fetchData_overlays_one_entry_at_most (this : Options)
    (names : list string) (dataFromChain : object value)
    (results : object entry) :
  getData this (KArray names) = Ok (Multiple dataFromChain) ->
  fetchData this (KArray names) = Ok (FetchedMultiple results) ->
  let decoded := map (fun kv => (fst kv, Decoded (snd kv))) dataFromChain in
  results = decoded \/ exists k x, results = set decoded k x.
Proof.
  intros Hget. unfold fetchData. rewrite Hget. cbn [bind].
  unfold getDataFromExternalSources.
  destruct (filterM _ dataFromChain) as [entries|e]; [|discriminate].
  cbn [bind]. destruct entries as [|[k v] entries].
  - simpl. intros H. injection H as <-. now left.
  - destruct (await (fold_left (reduceCallback this) ((k, v) :: entries)
                       (AccObject []))) as [o|e] eqn:E; [|discriminate].
    apply reduce_first_entry_only in E. destruct E as [x ->].
    cbn [bind]. intros H. injection H as <-. right. now exists k, x.
Qed.

End External.

(** ** The value codec of the model: decoding what was encoded

    These lemmas are about the layouts of the model only; what the
    library does on the value types the model leaves out is not settled
    by them. *)

Section RoundTrip.
Context {lib : Collaborators} {hf : HashFunctions}.
Local Open Scope list_scope.

Lemma byteToZ_byteOfZ (n : Z) : byteToZ (byteOfZ n) = (n mod 256)%Z.
Proof.
  unfold byteToZ, byteOfZ.
  assert (0 <= n mod 256 < 256)%Z by (apply Z.mod_pos_bound; lia).
  destruct (Byte.of_N (Z.to_N (n mod 256))) as [b|] eqn:E.
  - apply Byte.to_of_N in E. rewrite E. apply Z2N.id. lia.
  - apply Byte.of_N_None_iff in E. lia.
Qed.

Lemma decodeUint_app (bs : bytes) (b : byte) :
  decodeUint (bs ++ [b]) = (decodeUint bs * 256 + byteToZ b)%Z.
Proof. unfold decodeUint. now rewrite fold_left_app. Qed.

Lemma decodeUint_encodeUint (w : nat) (n : Z) :
  decodeUint (encodeUint w n) = (n mod 256 ^ Z.of_nat w)%Z.
Proof.
  unfold encodeUint. revert n. induction w as [|w IH]; intros n.
  - simpl. now rewrite Z.mod_1_r.
  - cbn [littleEndian rev].
    rewrite decodeUint_app, IH, byteToZ_byteOfZ.
    rewrite Nat2Z.inj_succ, Z.pow_succ_r by lia.
    assert (0 < 256 ^ Z.of_nat w)%Z by (apply Z.pow_pos_nonneg; lia).
    rewrite (Z.rem_mul_r n 256 (256 ^ Z.of_nat w)) by lia. lia.
Qed.

Lemma decodeUint_encodeUint_32 (n : Z) :
  (0 <= n < 2 ^ 256)%Z -> decodeUint (encodeUint 32 n) = n.
Proof.
  intros H. rewrite decodeUint_encodeUint.
  change (256 ^ Z.of_nat 32)%Z with (2 ^ 256)%Z. now apply Z.mod_small.
Qed.

Lemma firstn_length_app {A} (a b : list A) (n : nat) :
  List.length a = n -> firstn n (a ++ b) = a.
Proof.
  revert n. induction a as [|x a IH]; intros n H; subst n; simpl.
  - reflexivity.
  - f_equal. now apply IH.
Qed.

Lemma skipn_length_app {A} (a b : list A) (n : nat) :
  List.length a = n -> skipn n (a ++ b) = b.
Proof.
  revert n. induction a as [|x a IH]; intros n H; subst n; simpl.
  - reflexivity.
  - now apply IH.
Qed.

Lemma bytesEqb_eq (a b : bytes) : bytesEqb a b = true <-> a = b.
Proof.
  unfold bytesEqb. destruct (list_eq_dec Byte.byte_eq_dec a b); split;
    intros; congruence.
Qed.

Lemma distinctBytes_In (l : list (string * bytes)) (a b : string) (s : bytes) :
  distinctBytes (map snd l) = true ->
  In (a, s) l -> In (b, s) l -> a = b.
Proof.
  induction l as [|[c t] l IH]; simpl; intros Hd Ha Hb; [destruct Ha|].
  apply andb_true_iff in Hd. destruct Hd as [Hn Hd].
  apply negb_true_iff in Hn.
  assert (Hout : forall x, In (x, t) l -> False).
  { intros x Hx.
    assert (E : existsb (bytesEqb t) (map snd l) = true).
    { apply existsb_exists. exists t. split; [|now apply bytesEqb_eq].
      apply in_map_iff. now exists (x, t). }
    congruence. }
  destruct Ha as [Ha|Ha], Hb as [Hb|Hb].
  - congruence.
  - injection Ha as <- <-. now destruct (Hout b).
  - injection Hb as <- <-. now destruct (Hout a).
  - now apply IH.
Qed.

(** The selector of a hash function names that hash function, in a table
    without a repeated selector. *)
Lemma hashFunctionOfSelector_selectorOf (f : string) (selector : bytes) :
  selectorsDistinct = true ->
  selectorOf f = Some selector ->
  hashFunctionOfSelector selector = Some f.
Proof.
  unfold selectorsDistinct, selectorOf, hashFunctionOfSelector.
  intros Hd Hs.
  destruct (find (fun p => String.eqb (fst p) f) HASH_FUNCTIONS)
    as [[f' s']|] eqn:E; [|discriminate].
  simpl in Hs. injection Hs as ->.
  apply find_some in E. destruct E as [Hin Hf]. simpl in Hf.
  apply String.eqb_eq in Hf. subst f'.
  destruct (find (fun p => bytesEqb (snd p) selector) HASH_FUNCTIONS)
    as [[g t]|] eqn:E'.
  - apply find_some in E'. destruct E' as [Hin' Ht]. simpl in Ht.
    apply bytesEqb_eq in Ht. subst t. simpl. f_equal.
    exact (distinctBytes_In _ _ _ _ Hd Hin' Hin).
  - pose proof (find_none _ _ E' _ Hin) as Hn. simpl in Hn.
    assert (bytesEqb selector selector = true) by now apply bytesEqb_eq.
    congruence.
Qed.

(** One value: what is encoded decodes to the value. *)
Lemma decodeKeyValue_encodeKeyValue (valueContent valueType n : string)
    (l : layout) (v : value) :
  selectorsDistinct = true ->
  layoutOf valueContent valueType = Some l ->
  shapeOkAt l v = true ->
  exists bs,
    encodeKeyValue valueContent valueType v n = Ok bs /\
    decodeKeyValue valueContent valueType (SRaw (Some bs)) n = Ok v.
Proof.
  intros Hd Hl Hs. unfold encodeKeyValue, decodeKeyValue. rewrite Hl.
  destruct l, v; cbn [shapeOkAt] in Hs; try discriminate.
  - rewrite Hs. eexists. split; [reflexivity|].
    apply andb_true_iff in Hs. destruct Hs as [H0 H1].
    apply Z.leb_le in H0. apply Z.ltb_lt in H1.
    now rewrite decodeUint_encodeUint_32.
  - eexists. split; [reflexivity|].
    now rewrite string_of_list_byte_of_string.
  - eexists. split; reflexivity.
  - destruct (selectorOf (hashFunction u)) as [selector|] eqn:E; [|discriminate].
    rewrite Hs. eexists. split; [reflexivity|].
    apply andb_true_iff in Hs. destruct Hs as [H4 H32].
    apply Nat.eqb_eq in H4, H32.
    rewrite (firstn_length_app selector _ 4 H4).
    rewrite (skipn_length_app selector _ 4 H4).
    rewrite (firstn_length_app (hash u) _ 32 H32).
    rewrite app_assoc.
    rewrite (skipn_length_app (selector ++ hash u) _ 36)
      by (rewrite length_app; lia).
    rewrite (hashFunctionOfSelector_selectorOf _ _ Hd E).
    rewrite string_of_list_byte_of_string. now destruct u.
Qed.

Lemma get_app {V} (a b : object V) (k : string) :
  get (a ++ b) k = match get a k with Some v => Some v | None => get b k end.
Proof.
  induction a as [|[k' v] a IH]; simpl; [reflexivity|].
  now destruct (String.eqb k' k).
Qed.

Lemma distinct_cons (k : string) (l : list string) :
  distinct (k :: l) = true ->
  (forall k', In k' l -> k <> k') /\ distinct l = true.
Proof.
  simpl. intros H. apply andb_true_iff in H. destruct H as [Hn Hd].
  split; [|exact Hd]. intros k' Hin ->.
  apply negb_true_iff in Hn.
  assert (existsb (String.eqb k') l = true).
  { apply existsb_exists. exists k'. split; [exact Hin | apply String.eqb_refl]. }
  congruence.
Qed.

(** The elements of an array, from index [s] on: each is found under its
    key among the entries written before it ([pre]) and with it. *)
Lemma decode_elements (d : ERC725JSONSchema) (l : layout) (vs : list value)
    (s : nat) (pre : object stored) :
  selectorsDistinct = true ->
  layoutOf (valueContent d) (valueType d) = Some l ->
  forallb (shapeOkAt l) vs = true ->
  distinct (map (encodeArrayKey (key d)) (seq s (List.length vs))) = true ->
  (forall i, In i (seq s (List.length vs)) ->
             get pre (encodeArrayKey (key d) i) = None) ->
  exists elements,
    mapM (fun iv =>
            bs <- encodeKeyValue (valueContent d) (valueType d) (snd iv)
                    (name d) ;;
            Ok (encodeArrayKey (key d) (fst iv), SRaw (Some bs)))
      (combine (seq s (List.length vs)) vs) = Ok elements /\
    (vs <> [] -> elements <> []) /\
    mapM (fun index =>
            decodeKeyValue (valueContent d) (valueType d)
              (match get (pre ++ elements) (encodeArrayKey (key d) index) with
               | Some x => x
               | None => SRaw None
               end) (name d))
      (seq s (List.length vs)) = Ok vs.
Proof.
  intros Hd Hl. revert s pre.
  induction vs as [|v vs IH]; intros s pre Hshape Hkeys Hpre.
  - exists []. repeat split; congruence.
  - simpl in Hshape. apply andb_true_iff in Hshape.
    destruct Hshape as [Hv Hvs].
    cbn [List.length seq map] in Hkeys.
    apply distinct_cons in Hkeys. destruct Hkeys as [Hfresh Hkeys].
    destruct (decodeKeyValue_encodeKeyValue _ _ (name d) l v Hd Hl Hv)
      as [bs [Henc Hdec]].
    destruct (IH (S s) (pre ++ [(encodeArrayKey (key d) s, SRaw (Some bs))])
                Hvs Hkeys) as [elements [Hels [_ Hrest]]].
    { intros i Hi. rewrite get_app, Hpre by (simpl; now right). simpl.
      destruct (String.eqb (encodeArrayKey (key d) s)
                  (encodeArrayKey (key d) i)) eqn:E; [|reflexivity].
      apply String.eqb_eq in E. exfalso.
      apply (Hfresh (encodeArrayKey (key d) i)); [|exact E].
      apply in_map_iff. now exists i. }
    exists ((encodeArrayKey (key d) s, SRaw (Some bs)) :: elements).
    split; [|split; [discriminate|]].
    + cbn [List.length seq combine mapM fst snd]. rewrite Henc. simpl.
      now rewrite Hels.
    + cbn [List.length seq mapM].
      rewrite get_app, Hpre by (simpl; now left). simpl.
      rewrite String.eqb_refl, Hdec. simpl.
      rewrite <- app_assoc in Hrest. simpl in Hrest. now rewrite Hrest.
Qed.

(** One descriptor: what [encodeKey] writes, [decodeKey] reads back. *)
Lemma decodeKey_encodeKey (d : ERC725JSONSchema) (v : value) :
  selectorsDistinct = true ->
  shapeOk d v = true ->
  arrayKeysDistinct d v = true ->
  exists e, encodeKey d v = Ok e /\ decodeKey d e = Ok v.
Proof.
  intros Hd Hs Hk. unfold shapeOk in Hs.
  destruct (layoutOf (valueContent d) (valueType d)) as [l|] eqn:Hl;
    [|discriminate].
  unfold encodeKey, decodeKey.
  destruct (isArrayKeyType d) eqn:Harr.
  - destruct v as [| | | | | |vs]; try discriminate.
    apply andb_true_iff in Hs. destruct Hs as [Hshape Hlen].
    apply Z.ltb_lt in Hlen.
    simpl in Hk. apply distinct_cons in Hk. destruct Hk as [Hfresh Hkeys].
    assert (E : encodeKeyValue "Number" "uint256"
                  (VNumber (Z.of_nat (List.length vs))) (name d)
                = Ok (encodeUint 32 (Z.of_nat (List.length vs)))).
    { unfold encodeKeyValue. simpl layoutOf. cbv iota.
      assert (H0 : (0 <=? Z.of_nat (List.length vs))%Z = true)
        by (apply Z.leb_le; lia).
      assert (H1 : (Z.of_nat (List.length vs) <? 2 ^ 256)%Z = true)
        by now apply Z.ltb_lt.
      now rewrite H0, H1. }
    rewrite E. cbn [bind].
    destruct (decode_elements d l vs 0
                [(key d, SRaw (Some (encodeUint 32 (Z.of_nat (List.length vs)))))]
                Hd Hl Hshape Hkeys) as [elements [Hels [Hne Hdec]]].
    { intros i Hi. simpl.
      destruct (String.eqb (key d) (encodeArrayKey (key d) i)) eqn:E';
        [|reflexivity].
      apply String.eqb_eq in E'. exfalso.
      apply (Hfresh (encodeArrayKey (key d) i)); [|exact E'].
      apply in_map_iff. now exists i. }
    rewrite Hels. cbn [bind]. eexists. split; [reflexivity|].
    destruct vs as [|v vs].
    + simpl in Hels. injection Hels as <-. simpl.
      now rewrite String.eqb_refl.
    + destruct elements as [|[k x] elements];
        [exfalso; apply Hne; [discriminate | reflexivity]|].
      set (len := encodeUint 32 (Z.of_nat (List.length (v :: vs)))) in *.
      set (L := (key d, SRaw (Some len)) :: (k, x) :: elements).
      change ([(key d, SRaw (Some len))] ++ (k, x) :: elements) with L in Hdec.
      assert (Hex : existsb (fun kv => negb (String.eqb (fst kv) (key d))) L
                    = true).
      { unfold L. cbn [existsb fst]. rewrite String.eqb_refl. cbn [negb orb].
        cbn [List.length seq combine mapM fst snd] in Hels.
        destruct (encodeKeyValue _ _ v _); [|discriminate].
        cbn [bind] in Hels.
        destruct (mapM _ _); [|discriminate]. cbn [bind] in Hels.
        injection Hels as <- _ _.
        destruct (String.eqb (encodeArrayKey (key d) 0) (key d)) eqn:E';
          [|reflexivity].
        apply String.eqb_eq in E'. exfalso.
        apply (Hfresh (encodeArrayKey (key d) 0)); [left; reflexivity|].
        symmetry. exact E'. }
      assert (Hget : get L (key d) = Some (SRaw (Some len))).
      { unfold L. cbn [get]. rewrite String.eqb_refl. reflexivity. }
      assert (Hn : decodeKeyValue "Number" "uint256" (SRaw (Some len)) (name d)
                   = Ok (VNumber (Z.of_nat (List.length (v :: vs))))).
      { unfold decodeKeyValue, len. simpl layoutOf. cbv iota.
        rewrite decodeUint_encodeUint_32; [reflexivity | lia]. }
      rewrite Hex, Hget, Hn. cbn [bind lengthOf]. rewrite Nat2Z.id.
      rewrite Hdec. reflexivity.
  - destruct (decodeKeyValue_encodeKeyValue _ _ (name d) l v Hd Hl Hs)
      as [bs [Henc Hdec]].
    rewrite Henc. cbn [bind]. eexists. split; [reflexivity | exact Hdec].
Qed.

Lemma getSchemaElementIn_app (l l' : list (option ERC725JSONSchema))
    (k : string) (d : ERC725JSONSchema) :
  getSchemaElementIn l k = Ok d -> getSchemaElementIn (l ++ l') k = Ok d.
Proof.
  induction l as [|[e|] l IH]; simpl; intros H; try discriminate.
  destruct (String.eqb (key e) k || String.eqb (name e) k);
    [exact H | now apply IH].
Qed.

(** The wrappers [encodeData] and [decodeData] of the facade over the
    model: for a descriptor of the instance with one of the model's
    layouts, reached by its name and by its key, and a value of the
    layout's shape, [encodeData] succeeds and [decodeData] of its output
    is the value, under the descriptor's name. *)
Lemma decodeData_encodeData_roundtrip
    (this : Options) (n : string) (d : ERC725JSONSchema) (v : value)
    (extra : option (list ERC725JSONSchema)) :
  selectorsDistinct = true ->
  getSchemaElement (schemas this) n = Ok d ->
  getSchemaElement (schemas this) (key d) = Ok d ->
  shapeOk d v = true ->
  arrayKeysDistinct d v = true ->
  exists encoded,
    encodeData this [(n, v)] extra = Ok encoded /\
    decodeData this encoded = Ok [(name d, v)].
Proof.
  intros Hd Hn Hkey Hs Hk.
  destruct (decodeKey_encodeKey d v Hd Hs Hk) as [e [Henc Hdec]].
  exists [(key d, e)]. split.
  - unfold encodeData, lib_encodeData. simpl.
    rewrite (getSchemaElementIn_app _ _ _ _ Hn). simpl.
    now rewrite Henc.
  - unfold decodeData, lib_decodeData. simpl. rewrite Hkey. simpl.
    now rewrite Hdec.
Qed.

End RoundTrip.

(** * The properties at concrete inputs *)

Section Scenarios.
Import Sample.

(** Scenario A: the raw bytes of "hello" under a String descriptor. *)
Example scenario_A :
  getData items (KString "MyValue") = Ok (Single (VString "hello")) /\
  encodeData items [("MyValue", VString "hello")] None =
  Ok [("0xMyValue", SRaw (Some (list_byte_of_string "hello")))].
Proof. split; reflexivity. Qed.

(** Scenario B: an array of length 2. *)
Example scenario_B :
  getData items (KString "Items[]") =
  Ok (Single (VArray [VString "a"; VString "b"])).
Proof. vm_compute. reflexivity. Qed.

(** An array and an external reference, encoded and decoded. *)
Example roundtrip_array :
  (encoded <- encodeData items [("Items[]", VArray [VString "a"; VString "b"])]
                None ;;
   decodeData items encoded) =
  Ok [("Items[]", VArray [VString "a"; VString "b"])].
Proof. vm_compute. reflexivity. Qed.

Example roundtrip_reference :
  (encoded <- encodeData twoProfiles
                [("A", VUrl (reference "A" "ipfs://QmA"))] None ;;
   decodeData twoProfiles encoded) =
  Ok [("A", VUrl (reference "A" "ipfs://QmA"))].
Proof. vm_compute. reflexivity. Qed.

(** C2, at a concrete input: three external references are read
    together.  The document of B does not have the stored hash and the
    reference of C names an unsupported hash function: read alone, each
    of them is [null]; read after A, each is left as the reference the
    store holds, neither [null] nor fetched content. *)
Theorem fetchData_unauthentic_later_references :
  fetchData unauthenticated (KString "B") = Ok (FetchedSingle (Decoded VNull)) /\
  fetchData unauthenticated (KString "C") = Ok (FetchedSingle (Decoded VNull)) /\
  fetchData unauthenticated (KArray ["A"; "B"; "C"]) =
  Ok (FetchedMultiple
        [ ("A", Fetched (Json (JString "A")));
          ("B", Decoded (VUrl (reference "not B" "ipfs://QmB")));
          ("C", Decoded (VUrl {| hashFunction := UNSUPPORTED_HASH_FUNCTION;
                                 hash := digest (Json (JString "A"));
                                 url := "ipfs://QmA" |})) ]).
Proof. repeat split; vm_compute; reflexivity. Qed.

Lemma getDataMultiple_unknown_name_counterexample :
  getData items (KArray ["MyValue"]) =
    Ok (Multiple [("MyValue", VString "hello")]) /\
  getData items (KArray ["MyValue"; "Unknown"]) =
    Throw (SchemaNotFoundError "Unknown") /\
  ~ (exists r, getData items (KArray ["MyValue"; "Unknown"]) = Ok (Multiple r)).
Proof.
  split; [vm_compute; reflexivity|].
  assert (E : getData items (KArray ["MyValue"; "Unknown"]) =
              Throw (SchemaNotFoundError "Unknown")) by (vm_compute; reflexivity).
  split; [exact E|]. intros [r Hr]. rewrite E in Hr. discriminate Hr.
Qed.

Lemma getDataMultiple_unknown_name_aborts_witness :
  (exists n, In n ["MyValue"; "Unknown"] /\
     forall d, In d (schemas items) -> key d <> n /\ name d <> n) /\
  exists n,
    In n ["MyValue"; "Unknown"] /\
    getSchemaElement (schemas items) n = Throw (SchemaNotFoundError n) /\
    getDataMultiple items ["MyValue"; "Unknown"] = Throw (SchemaNotFoundError n) /\
    (forall a p, getAddressAndProvider items = Ok (a, p) ->
       getData items (KArray ["MyValue"; "Unknown"])
       = Throw (SchemaNotFoundError n)).
Proof.
  assert (H : exists n, In n ["MyValue"; "Unknown"] /\
            forall d, In d (schemas items) -> key d <> n /\ name d <> n).
  { exists "Unknown". split; [simpl; tauto|].
    intros d [<-|[<-|[]]]; split; discriminate. }
  split; [exact H|].
  exact (getDataMultiple_unknown_name_aborts items ["MyValue"; "Unknown"] H).
Defined.

Lemma constructor_registers_valid_schemas_witness :
  instanceOf [MyValue; Stale; Items] [] never = Ok registered /\
  Subsequence (schemas registered) [MyValue; Stale; Items] /\
  ~ In Stale (schemas registered).
Proof.
  assert (H : instanceOf [MyValue; Stale; Items] [] never = Ok registered)
    by reflexivity.
  split; [exact H|].
  destruct (constructor_registers_valid_schemas
              [MyValue; Stale; Items] (Some "0xContract")
              (ProviderWithRequest (storeProvider [] never))
              (Some {| config_ipfsGateway := Some "https://gw/ipfs/" |})
              registered H)
    as [_ [Hsub [Hrej _]]].
  split; [exact Hsub|].
  apply (Hrej Stale); [simpl; tauto | discriminate].
Defined.

(** C5, at a concrete input: two external references, both authentic,
    are read together with a plain value.  The first is replaced by the
    fetched content; the second is left as the reference the store holds,
    though read alone it is replaced as well. *)
Theorem fetchData_overlays_first_reference_only :
  fetchData twoProfiles (KString "B") =
    Ok (FetchedSingle (Fetched (Json (JString "B")))) /\
  fetchData twoProfiles (KArray ["MyValue"; "A"; "B"]) =
  Ok (FetchedMultiple
        [ ("MyValue", Decoded (VString "hello"));
          ("A", Fetched (Json (JString "A")));
          ("B", Decoded (VUrl (reference "B" "ipfs://QmB"))) ]).
Proof. split; vm_compute; reflexivity. Qed.

Lemma array_read_failure_is_empty_witness :
  getArrayValues itemsRejected Items
    (dataKeyValueOf Items (SRaw (Some (encodeUint 32 2)))) = Ok [] /\
  getDataSingle itemsRejected "Items[]" = Ok (VArray []) /\
  getDataMultiple itemsRejected ["MyValue"; "Items[]"] =
  Ok [("MyValue", VString "hello"); ("Items[]", VArray [])].
Proof.
  set (p := storeProvider itemsStore (existsb (String.eqb "0xItems[]0"))).
  assert (Hp : provider itemsRejected = Some p) by reflexivity.
  assert (Hk : keyType Items = "Array") by reflexivity.
  assert (Hfail : provider_getAllData p (address itemsRejected)
                    (arrayElementKeysOf Items
                       (dataKeyValueOf Items (SRaw (Some (encodeUint 32 2))))
                       (Z.to_nat (decodeUint (encodeUint 32 2))))
                  = Throw (StoreError "rejected"))
    by (vm_compute; reflexivity).
  destruct (array_read_failure_is_empty itemsRejected p Items
              (encodeUint 32 2) (StoreError "rejected") Hp Hk Hfail)
    as [H1 [H2 H3]].
  split; [exact H1|]. split.
  - apply H2; reflexivity.
  - rewrite (H3 ["MyValue"; "Items[]"] ["0xMyValue"; "0xItems[]"]
               [("0xMyValue", Some (list_byte_of_string "hello"));
                ("0xItems[]", Some (encodeUint 32 2))]
               [] []
               [("0xMyValue", SRaw (Some (list_byte_of_string "hello")));
                ("0xItems[]", SRaw (Some (encodeUint 32 2)))]);
      reflexivity.
Defined.

(** C7, at a concrete input: two external references are read
    together.  When the document of the second cannot be fetched the
    call throws the fetch error; when it is fetched and does not have the
    stored hash the call returns, and the entry is the reference the
    store holds, not [null] as it is when the reference is read alone. *)
Theorem fetchData_failure_and_mismatch_of_later_reference :
  fetchData unreachable (KArray ["A"; "B"]) =
    Throw (FetchError (Some "https://gw/ipfs/QmGone")) /\
  fetchData mismatching (KString "B") = Ok (FetchedSingle (Decoded VNull)) /\
  fetchData mismatching (KArray ["A"; "B"]) =
  Ok (FetchedMultiple
        [ ("A", Fetched (Json (JString "A")));
          ("B", Decoded (VUrl (reference "not B" "ipfs://QmB"))) ]).
Proof. repeat split; vm_compute; reflexivity. Qed.

(** C8, at a concrete input: a url in the https scheme that carries an
    ipfs url in its query is not fetched as it is: the ipfs url inside it
    is replaced by the gateway, and the fetch goes to the rewritten
    url. *)
Theorem fetchTarget_rewrites_url_of_another_scheme :
  hasScheme "ipfs://" "https://example.com/?next=ipfs://QmA" = false /\
  fetchTarget redirecting
    (VUrl (reference "page" "https://example.com/?next=ipfs://QmA")) =
    Some "https://example.com/?next=https://gw/ipfs/QmA" /\
  fetch (Some "https://example.com/?next=ipfs://QmA") = None /\
  fetchData redirecting (KString "A") =
    Ok (FetchedSingle (Fetched (Json (JString "page")))).
Proof. repeat split; vm_compute; reflexivity. Qed.

Lemma getData_inexact_Array_keyType_throws_witness :
  getSchemaElement (schemas lowercase) "Things[]" = Ok things /\
  toLowerCase (keyType things) = "array" /\
  keyType things <> "Array" /\
  getData lowercase (KString "Things[]") = Throw NotAnArraySchema.
Proof.
  assert (H : keyType things <> "Array") by discriminate.
  assert (Hn : "Things[]" <> "") by discriminate.
  repeat (split; [first [reflexivity | exact H]|]).
  destruct (getData_inexact_Array_keyType_throws lowercase "Things[]" things
              eq_refl eq_refl H Hn) as [_ [_ Hthrow]].
  apply (Hthrow "0xContract"
           (storeProvider
              [ ("0xMyValue", list_byte_of_string "hello");
                ("0xThings[]", encodeUint 32 1);
                ("0xThings[]0", list_byte_of_string "a") ] never)
           (Some (encodeUint 32 1))); reflexivity.
Defined.

End Scenarios.


(** * Further properties of the facade *)

(** ** Objects: lookup after a write *)

Section Objects.
Context {V : Type}.

Lemma get_set_eq (o : object V) (k : string) (v : V) :
  get (set o k v) k = Some v.
Proof.
  induction o as [|[k' v'] o IH]; simpl.
  - now rewrite String.eqb_refl.
  - destruct (String.eqb k' k) eqn:E; simpl.
    + now rewrite String.eqb_refl.
    + now rewrite E.
Qed.

Lemma get_set_neq (o : object V) (k k' : string) (v : V) :
  k <> k' -> get (set o k v) k' = get o k'.
Proof.
  intros Hne. induction o as [|[k0 v0] o IH]; simpl.
  - apply String.eqb_neq in Hne. now rewrite Hne.
  - destruct (String.eqb k0 k) eqn:E; simpl.
    + apply String.eqb_eq in E. subst k0.
      apply String.eqb_neq in Hne. now rewrite Hne.
    + destruct (String.eqb k0 k'); [reflexivity | exact IH].
Qed.

(** A write to a name the object has keeps the names and their order. *)
Lemma set_keeps_names (o : object V) (k : string) (v : V) :
  In k (map fst o) -> map fst (set o k v) = map fst o.
Proof.
  induction o as [|[k' v'] o IH]; simpl; intros Hin; [destruct Hin|].
  destruct (String.eqb k' k) eqn:E; simpl.
  - apply String.eqb_eq in E. now subst.
  - f_equal. apply IH. destruct Hin as [->|Hin]; [|exact Hin].
    now rewrite String.eqb_refl in E.
Qed.

End Objects.

Lemma get_map {V W} (f : V -> W) (o : object V) (k : string) :
  get (map (fun kv => (fst kv, f (snd kv))) o) k = option_map f (get o k).
Proof.
  induction o as [|[k' v] o IH]; simpl; [reflexivity|].
  now destruct (String.eqb k' k).
Qed.

(** ** Every network operation needs the address and the provider *)

Section Guards.
Context {lib : Collaborators} {hf : HashFunctions} {net : Network}.

Lemma guard_throws (this : Options) (e : error) :
  getAddressAndProvider this = Throw e ->
  forall k a m s,
    getData this k = Throw e /\
    fetchData this k = Throw e /\
    getOwner this a = Throw e /\
    isValidSignature this m s = Throw e.
Proof.
  intros H k a m s.
  assert (Hget : forall k', getData this k' = Throw e).
  { intros k'. unfold getData. now rewrite H. }
  split; [apply Hget|]. split.
  - unfold fetchData. now rewrite Hget.
  - split; [unfold getOwner; now rewrite H|].
    revert H. unfold getAddressAndProvider, isValidSignature.
    destruct (address this) as [x|]; [|now intros H; injection H as <-].
    destruct (String.eqb x "" || negb (isAddress x));
      [now intros H; injection H as <-|].
    destruct (provider this); [discriminate|]. now intros H; injection H as <-.
Qed.

(** X1: without an address that [isAddress] accepts, [getData],
    [fetchData], [getOwner] and [isValidSignature] throw 'Missing ERC725
    contract address.', whatever the provider and the arguments, an
    address passed to [getOwner] included; with such an address and no
    provider they throw 'Missing provider.'. *)
Theorem operations_need_address_and_provider (this : Options) :
  ((address this = None \/
    exists x, address this = Some x /\ (x = "" \/ isAddress x = false)) ->
   forall k a m s,
     getData this k = Throw MissingAddress /\
     fetchData this k = Throw MissingAddress /\
     getOwner this a = Throw MissingAddress /\
     isValidSignature this m s = Throw MissingAddress) /\
  (forall x, address this = Some x -> x <> "" -> isAddress x = true ->
   provider this = None ->
   forall k a m s,
     getData this k = Throw MissingProvider /\
     fetchData this k = Throw MissingProvider /\
     getOwner this a = Throw MissingProvider /\
     isValidSignature this m s = Throw MissingProvider).
Proof.
  split.
  - intros H. apply guard_throws. unfold getAddressAndProvider.
    destruct H as [->|[x [-> [->|Hx]]]]; [reflexivity | reflexivity |].
    rewrite Hx. simpl. now rewrite orb_true_r.
  - intros x Hx Hne Hok Hp. apply guard_throws. unfold getAddressAndProvider.
    rewrite Hx, Hok, Hp. apply String.eqb_neq in Hne. now rewrite Hne.
Qed.

(** X2: the constructor fails on a missing schema list, then on a
    provider of an unsupported kind, and on nothing else: the address is
    stored as it is given, a missing one too, and a missing provider is
    stored as none. *)
Theorem constructor_outcome :
  (forall a p c, constructor None a p c = Throw MissingSchema) /\
  (forall input a c,
     constructor (Some input) a ProviderUnsupported c = Throw IncorrectProvider) /\
  (forall input a p c, p <> ProviderUnsupported ->
     exists this,
       constructor (Some input) a p c = Ok this /\
       schemas this = validateSchemas input /\
       address this = a /\
       provider this = match p with
                       | ProviderWithRequest q | ProviderWithSend q => Some q
                       | _ => None
                       end).
Proof.
  split; [reflexivity|]. split; [reflexivity|].
  intros input a p c Hp. unfold constructor.
  destruct p; simpl; try (eexists; repeat split; reflexivity).
  now destruct Hp.
Qed.

End Guards.

(** ** [fetchData] over a whole mapping *)

Section Fetching.
Context {lib : Collaborators} {hf : HashFunctions}.
Local Open Scope list_scope.

(** X3: [fetchData] on a string is [fetchData] on the array of that
    string (on no argument, for the empty string) followed by the lookup
    of the string in the mapping, [null] when the mapping has no such
    name. *)
Theorem fetchData_of_a_string_is_a_lookup (this : Options) (s : string) :
  fetchData this (KString s) =
  (r <- fetchData this (if String.eqb s "" then KUndefined else KArray [s]) ;;
   match r with
   | FetchedMultiple results =>
       Ok (FetchedSingle match get results s with
                         | Some e => e
                         | None => Decoded VNull
                         end)
   | FetchedSingle e => Ok (FetchedSingle e)
   end).
Proof.
  unfold fetchData.
  assert (E : getData this (KString "") = getData this KUndefined) by reflexivity.
  destruct (String.eqb s "") eqn:Hs.
  - apply String.eqb_eq in Hs. subst s. rewrite E.
    destruct (getData this KUndefined) as [[v|o]|e]; simpl; try reflexivity.
    destruct (getDataFromExternalSources this o) as [promise|e]; simpl;
      [|reflexivity].
    destruct (await promise) as [ext|e]; simpl; [|reflexivity].
    now destruct (get _ "").
  - destruct (getData this (KArray [s])) as [[v|o]|e]; simpl; try reflexivity.
    destruct (getDataFromExternalSources this o) as [promise|e]; simpl;
      [|reflexivity].
    destruct (await promise) as [ext|e]; simpl; [|reflexivity].
    now destruct (get _ s).
Qed.


Lemma filterM_none {A} (f : A -> result bool) (l : list A) :
  (forall a, In a l -> f a = Ok false) -> filterM f l = Ok [].
Proof.
  induction l as [|a l IH]; intros H; simpl; [reflexivity|].
  rewrite (H a (or_introl eq_refl)). simpl.
  rewrite IH; [reflexivity|]. intros a' Ha'. apply H. now right.
Qed.

Lemma filterM_inv {A} (f : A -> result bool) (l l' : list A) (a : A) :
  filterM f l = Ok l' -> In a l' -> In a l /\ f a = Ok true.
Proof.
  revert l'. induction l as [|x l IH]; intros l' H Hin; simpl in H.
  - injection H as <-. destruct Hin.
  - inv_bind H. rename a0 into b, Ha into Hx. inv_bind H. injection H as <-.
    destruct b.
    + destruct Hin as [->|Hin]; [split; [now left | exact Hx]|].
      destruct (IH a0 Ha Hin) as [H1 H2]. split; [now right | exact H2].
    + destruct (IH a0 Ha Hin) as [H1 H2]. split; [now right | exact H2].
Qed.

Lemma external_false (this : Options) (k : string) (v : value) :
  (exists d, getSchemaElement (schemas this) k = Ok d /\
             isExternalContent d = false) ->
  external this (k, v) = Ok false.
Proof.
  intros [d [Hd He]]. unfold external. cbn [fst]. rewrite Hd. cbn [bind].
  now rewrite He.
Qed.






(** X5: when no entry of the mapping [getData] returns is an external
    reference, [fetchData] returns that mapping, every value as decoded. *)
Theorem fetchData_without_references_is_getData
    (this : Options) (names : list string) (o : object value) :
  getData this (KArray names) = Ok (Multiple o) ->
  (forall k v, In (k, v) o ->
     exists d, getSchemaElement (schemas this) k = Ok d /\
               isExternalContent d = false) ->
  fetchData this (KArray names) =
  Ok (FetchedMultiple (map (fun kv => (fst kv, Decoded (snd kv))) o)).
Proof.
  intros Hget Hall. unfold fetchData. rewrite Hget. cbn [bind].
  unfold getDataFromExternalSources.
  change (filterM _ o) with (filterM (external this) o).
  rewrite (filterM_none (external this) o)
    by (intros [k v] Hin; apply external_false; now apply (Hall k v)).
  reflexivity.
Qed.

(** X6: [fetchData] returns the names of the mapping of [getData], in
    their order, and under every name whose descriptor is not an external
    reference the decoded value of [getData]. *)
Theorem fetchData_keeps_names_and_plain_values
    (this : Options) (names : list string) (o : object value)
    (results : object entry) :
  getData this (KArray names) = Ok (Multiple o) ->
  fetchData this (KArray names) = Ok (FetchedMultiple results) ->
  map fst results = map fst o /\
  forall k d, getSchemaElement (schemas this) k = Ok d ->
              isExternalContent d = false ->
              get results k = option_map Decoded (get o k).
Proof.
  intros Hget. unfold fetchData. rewrite Hget. cbn [bind].
  unfold getDataFromExternalSources.
  change (filterM _ o) with (filterM (external this) o).
  destruct (filterM (external this) o) as [entries|e] eqn:Hf; cbn [bind];
    [|discriminate].
  set (decoded := map (fun kv => (fst kv, Decoded (snd kv))) o).
  assert (Hnames : map fst decoded = map fst o).
  { unfold decoded. rewrite map_map. reflexivity. }
  destruct entries as [|[k0 v0] entries].
  - simpl. intros H. injection H as <-. split; [exact Hnames|].
    intros k d _ _. apply get_map.
  - destruct (await (fold_left (reduceCallback this) ((k0, v0) :: entries)
                       (AccObject []))) as [ext|e] eqn:E; cbn [bind];
      [|discriminate].
    apply reduce_first_entry_only in E. destruct E as [x ->].
    intros H. injection H as <-. unfold spread. simpl.
    destruct (filterM_inv _ _ _ (k0, v0) Hf (or_introl eq_refl)) as [Hin Hext].
    split.
    + rewrite set_keeps_names; [exact Hnames|]. rewrite Hnames.
      apply in_map_iff. now exists (k0, v0).
    + intros k d Hd Hplain.
      assert (Hne : k0 <> k).
      { intros ->. unfold external in Hext. simpl in Hext.
        rewrite Hd in Hext. simpl in Hext. congruence. }
      rewrite (get_set_neq _ _ _ _ Hne). apply get_map.
Qed.



End Fetching.

(** ** [patchIPFSUrlsIfApplicable]: which occurrence is replaced *)

Section Patching.
Context {lib : Collaborators} {hf : HashFunctions}.

Lemma stripPrefix_sound (p s rest : string) :
  stripPrefix p s = Some rest -> s = p ++ rest.
Proof.
  revert s. induction p as [|a p IH]; intros s H; simpl in H.
  - now injection H as ->.
  - destruct s as [|b s]; [discriminate|].
    destruct (Ascii.eqb a b) eqn:E; [|discriminate].
    apply Ascii.eqb_eq in E. subst b. simpl. f_equal. now apply IH.
Qed.

Lemma splitOn_unfold (p s : string) :
  splitOn p s =
  match stripPrefix p s with
  | Some rest => Some (EmptyString, rest)
  | None =>
      match s with
      | EmptyString => None
      | String c s' =>
          match splitOn p s' with
          | Some (before, after) => Some (String c before, after)
          | None => None
          end
      end
  end.
Proof. destruct s; reflexivity. Qed.

Lemma splitOn_sound (p s before after : string) :
  splitOn p s = Some (before, after) -> s = before ++ p ++ after.
Proof.
  revert before. induction s as [|c s IH]; intros before H;
    rewrite splitOn_unfold in H.
  - destruct (stripPrefix p "") as [rest|] eqn:E; [|discriminate].
    injection H as <- <-. cbn [append]. now apply stripPrefix_sound.
  - destruct (stripPrefix p (String c s)) as [rest|] eqn:E.
    + injection H as <- <-. cbn [append]. now apply stripPrefix_sound.
    + destruct (splitOn p s) as [[b0 a0]|]; [|discriminate].
      injection H as <- <-. simpl. f_equal. now apply IH.
Qed.

(** [splitOn] finds the first occurrence. *)
Lemma splitOn_first (p s before after : string) :
  splitOn p s = Some (before, after) ->
  forall b a, s = b ++ p ++ a -> String.length before <= String.length b.
Proof.
  revert before. induction s as [|c s IH]; intros before H b a Hs;
    rewrite splitOn_unfold in H.
  - destruct (stripPrefix p "") as [rest|]; [|discriminate].
    injection H as <- <-. simpl. lia.
  - destruct (stripPrefix p (String c s)) as [rest|] eqn:E.
    + injection H as <- <-. simpl. lia.
    + destruct (splitOn p s) as [[b0 a0]|] eqn:E0; [|discriminate].
      injection H as <- <-.
      destruct b as [|c' b].
      * simpl in Hs. rewrite Hs, stripPrefix_app in E. discriminate.
      * simpl in Hs. injection Hs as -> Hs. simpl.
        apply le_n_S. now apply (IH b0 eq_refl b a).
Qed.

Lemma splitOn_none (p s : string) :
  splitOn p s = None -> forall b a, s <> b ++ p ++ a.
Proof.
  induction s as [|c s IH]; intros H b a Hs; rewrite splitOn_unfold in H.
  - destruct b; [|discriminate]. simpl in Hs.
    rewrite Hs, stripPrefix_app in H. discriminate.
  - destruct (stripPrefix p (String c s)) as [rest|] eqn:E; [discriminate|].
    destruct b as [|c' b].
    + simpl in Hs. rewrite Hs, stripPrefix_app in E. discriminate.
    + simpl in Hs. injection Hs as -> Hs.
      destruct (splitOn p s) as [[b0 a0]|]; [discriminate|].
      now apply (IH eq_refl b a).
Qed.

Lemma append_inj (b b' x y : string) :
  String.length b = String.length b' -> b ++ x = b' ++ y -> b = b' /\ x = y.
Proof.
  revert b'. induction b as [|c b IH]; intros [|c' b'] Hl H;
    try discriminate; simpl in *.
  - now split.
  - injection H as -> H. injection Hl as Hl.
    destruct (IH b' Hl H) as [-> ->]. now split.
Qed.

(** X8: a url in which 'ipfs://' occurs, first after the text [before]:
    the reference that is fetched has that occurrence replaced by the
    gateway of the instance (a gateway without a dollar sign), what stands
    before and after it kept, a later 'ipfs://' included; hash and hash
    function are the stored ones. *)
Theorem patchIPFSUrlsIfApplicable_replaces_first_occurrence
    (this : Options) (u : URLDataWithHash) (before after : string) :
  plainReplacement (ipfsGateway this) = true ->
  url u = before ++ "ipfs://" ++ after ->
  (forall b a, url u = b ++ "ipfs://" ++ a ->
               String.length before <= String.length b) ->
  patchIPFSUrlsIfApplicable this (VUrl u) =
    VUrl {| hashFunction := hashFunction u; hash := hash u;
            url := before ++ ipfsGateway this ++ after |} /\
  fetchTarget this (VUrl u) = Some (before ++ ipfsGateway this ++ after).
Proof.
  intros Hplain Hu Hfirst.
  destruct (splitOn "ipfs://" (url u)) as [[b0 a0]|] eqn:E.
  - pose proof (splitOn_sound _ _ _ _ E) as Hs.
    pose proof (splitOn_first _ _ _ _ E before after Hu) as H1.
    pose proof (Hfirst b0 a0 Hs) as H2.
    assert (Hlen : String.length before = String.length b0) by lia.
    rewrite Hu in Hs. destruct (append_inj _ _ _ _ Hlen Hs) as [<- Hrest].
    destruct (append_inj "ipfs://" "ipfs://" after a0 eq_refl Hrest) as [_ <-].
    assert (Hne : String.eqb (url u) "" = false).
    { rewrite Hu. destruct before; reflexivity. }
    assert (Hpatch : patchIPFSUrlsIfApplicable this (VUrl u) =
              VUrl {| hashFunction := hashFunction u; hash := hash u;
                      url := before ++ ipfsGateway this ++ after |}).
    { unfold patchIPFSUrlsIfApplicable, indexOf, replace. rewrite Hne, E.
      rewrite GetSubstitution_plain by exact Hplain.
      assert (Hz : (Z.of_nat (String.length before) =? -1)%Z = false)
        by (apply Z.eqb_neq; lia).
      rewrite Hz. reflexivity. }
    split; [exact Hpatch|]. unfold fetchTarget. now rewrite Hpatch.
  - exfalso. exact (splitOn_none _ _ E before after Hu).
Qed.

(** X9: a reference in whose url 'ipfs://' does not occur is fetched at
    its url, and is handed on as it is; so is every value that is not a
    reference. *)
Theorem patchIPFSUrlsIfApplicable_leaves_other_urls
    (this : Options) :
  (forall u, (forall b a, url u <> b ++ "ipfs://" ++ a) ->
     patchIPFSUrlsIfApplicable this (VUrl u) = VUrl u /\
     fetchTarget this (VUrl u) = Some (url u)) /\
  (forall v, urlOf v = None -> patchIPFSUrlsIfApplicable this v = v).
Proof.
  split.
  - intros u Hno.
    assert (E : splitOn "ipfs://" (url u) = None).
    { destruct (splitOn "ipfs://" (url u)) as [[b a]|] eqn:E; [|reflexivity].
      exfalso. exact (Hno b a (splitOn_sound _ _ _ _ E)). }
    assert (Hpatch : patchIPFSUrlsIfApplicable this (VUrl u) = VUrl u).
    { unfold patchIPFSUrlsIfApplicable, indexOf. rewrite E. simpl.
      now rewrite andb_false_r. }
    split; [exact Hpatch|]. unfold fetchTarget. now rewrite Hpatch.
  - intros v Hv. destruct v; try reflexivity. discriminate.
Qed.

End Patching.

(** ** Array assembly and the batched read *)

Section Assembling.
Context {lib : Collaborators} {hf : HashFunctions}.
Local Open Scope list_scope.

(** X10: [getArrayValues] and the length it decodes.  What it returns
    is the empty list or the answer of the store to one batched read, and
    that read is for the length decoded from the length entry of [data]:
    its keys are the element keys of the indices below that length that
    [data] does not hold, in the order of the indices.  In the other
    direction, when the length entry decodes and the store answers that
    read, the answer is what is returned. *)
Theorem getArrayValues_reads_elements_below_length
    (this : Options) (schema : ERC725JSONSchema)
    (data : object (string * stored)) :
  (forall r, getArrayValues this schema data = Ok r ->
     keyType schema = "Array" /\
     (r = [] \/
      exists value arrayLength p answer,
        get data (key schema) = Some value /\
        truthyStored (snd value) = true /\
        decodeKeyValue "Number" "uint256" (snd value) (name schema)
          = Ok arrayLength /\
        provider this = Some p /\
        provider_getAllData p (address this)
          (filter (fun k => negb (hasOwnProperty data k))
             (map (encodeArrayKey (key schema))
                (seq 0 (lengthOf arrayLength)))) = Ok answer /\
        r = map (fun kv => (fst kv, SRaw (snd kv))) answer)) /\
  (forall value arrayLength p answer,
     keyType schema = "Array" ->
     get data (key schema) = Some value ->
     truthyStored (snd value) = true ->
     decodeKeyValue "Number" "uint256" (snd value) (name schema)
       = Ok arrayLength ->
     provider this = Some p ->
     provider_getAllData p (address this)
       (filter (fun k => negb (hasOwnProperty data k))
          (map (encodeArrayKey (key schema))
             (seq 0 (lengthOf arrayLength)))) = Ok answer ->
     getArrayValues this schema data =
     Ok (map (fun kv => (fst kv, SRaw (snd kv))) answer)) /\
  (forall n k,
     In k (filter (fun k => negb (hasOwnProperty data k))
             (map (encodeArrayKey (key schema)) (seq 0 n))) <->
     get data k = None /\
     exists i, i < n /\ k = encodeArrayKey (key schema) i).
Proof.
  split; [|split].
  - intros r. unfold getArrayValues, arrayElementKeysOf.
    destruct (String.eqb (keyType schema) "Array") eqn:Hk; cbn [negb];
      [|discriminate].
    apply String.eqb_eq in Hk. intros H. split; [exact Hk|].
    destruct (get data (key schema)) as [value|] eqn:Hget;
      [|injection H as <-; now left].
    destruct (truthyStored (snd value)) eqn:Ht; cbn [negb] in H;
      [|injection H as <-; now left].
    destruct (decodeKeyValue "Number" "uint256" (snd value) (name schema))
      as [arrayLength|e] eqn:Hdec; cbn [bind] in H; [|discriminate].
    destruct (provider this) as [p|] eqn:Hp; [|injection H as <-; now left].
    destruct (provider_getAllData p (address this) _) as [answer|e] eqn:E;
      [|injection H as <-; now left].
    injection H as <-. right. exists value, arrayLength, p, answer.
    split; [reflexivity|]. split; [exact Ht|]. split; [exact Hdec|].
    split; [reflexivity|]. split; [exact E | reflexivity].
  - intros value arrayLength p answer Hk Hget Ht Hdec Hp Hread.
    unfold getArrayValues, arrayElementKeysOf.
    rewrite Hk, Hget. rewrite String.eqb_refl.
    cbn [negb]. rewrite Ht. cbn [negb]. rewrite Hdec. cbn [bind].
    rewrite Hp, Hread. reflexivity.
  - intros n k. rewrite filter_In, in_map_iff. split.
    + intros [[i [<- Hi]] Hfree]. split.
      * unfold hasOwnProperty in Hfree.
        now destruct (get data (encodeArrayKey (key schema) i)).
      * apply in_seq in Hi. exists i. split; [lia | reflexivity].
    + intros [Hnone [i [Hi ->]]]. split.
      * exists i. split; [reflexivity | apply in_seq; lia].
      * unfold hasOwnProperty. now rewrite Hnone.
Qed.

Lemma assembleArrays_inexact (this : Options) (d : ERC725JSONSchema)
    (l : list ERC725JSONSchema) (tmpData : object stored) :
  In d l -> keyType d <> "Array" ->
  isOk (assembleArrays this l tmpData) = false.
Proof.
  intros Hin Hk. revert tmpData.
  induction l as [|a l IH]; intros tmpData; [destruct Hin|].
  cbn [assembleArrays]. destruct Hin as [->|Hin].
  - now rewrite (getArrayValues_guard this d _ Hk).
  - destruct (getArrayValues this a _) as [arrayValues|e]; cbn [bind];
      [|reflexivity].
    destruct (0 <? List.length arrayValues)%nat; now apply IH.
Qed.

(** X11: one registered descriptor whose keyType is 'array' up to case
    but not the string 'Array' makes every batched read of the instance
    fail, whatever names are asked for: [getDataMultiple], [getData] on an
    array or on no argument, and [fetchData] on any argument. *)
Theorem inexact_Array_keyType_fails_every_batch
    (this : Options) (d : ERC725JSONSchema) :
  In d (schemas this) ->
  toLowerCase (keyType d) = "array" ->
  keyType d <> "Array" ->
  (forall names, isOk (getDataMultiple this names) = false) /\
  (forall names, isOk (getData this (KArray names)) = false) /\
  isOk (getData this KUndefined) = false /\
  (forall k, isOk (fetchData this k) = false).
Proof.
  intros Hin Hlow Hk.
  assert (Hmulti : forall names, isOk (getDataMultiple this names) = false).
  { intros names. unfold getDataMultiple.
    destruct (keyHashesOf this names); cbn [bind]; [|reflexivity].
    destruct (match provider this with
              | Some p => _
              | None => _
              end) as [allRawData|e]; cbn [bind]; [|reflexivity].
    assert (Hd : In d (filter isArrayKeyType (schemas this))).
    { apply filter_In. split; [exact Hin|]. unfold isArrayKeyType.
      now rewrite Hlow. }
    pose proof (assembleArrays_inexact this d _ (tmpDataOf allRawData) Hd Hk)
      as Hfail.
    now destruct (assembleArrays this _ _). }
  assert (Hget : forall names, isOk (getData this (KArray names)) = false).
  { intros names. unfold getData.
    destruct (getAddressAndProvider this); cbn [bind]; [|reflexivity].
    specialize (Hmulti names). now destruct (getDataMultiple this names). }
  assert (Hall : isOk (getData this KUndefined) = false).
  { unfold getData.
    destruct (getAddressAndProvider this); cbn [bind]; [|reflexivity].
    specialize (Hmulti (map name (schemas this))).
    now destruct (getDataMultiple this _). }
  split; [exact Hmulti|]. split; [exact Hget|]. split; [exact Hall|].
  intros k. unfold fetchData.
  assert (Hkeys : isOk (getData this
                          match k with
                          | KString s => if String.eqb s "" then k else KArray [s]
                          | _ => k
                          end) = false).
  { destruct k as [|s|names]; [exact Hall | | apply Hget].
    destruct (String.eqb s "") eqn:Hs; [|apply Hget].
    apply String.eqb_eq in Hs. subst s. exact Hall. }
  cbv zeta.
  destruct (getData this
              match k with
              | KString s => if String.eqb s "" then k else KArray [s]
              | _ => k
              end) as [g|e]; [discriminate Hkeys | reflexivity].
Qed.

Lemma fold_set_other (l : list (string * raw)) (acc : object stored)
    (k : string) :
  (forall r, ~ In (k, r) l) ->
  get (fold_left (fun accumulator current =>
                    set accumulator (fst current) (SRaw (snd current)))
         l acc) k = get acc k.
Proof.
  revert acc. induction l as [|[k' r'] l IH]; intros acc Hno; [reflexivity|].
  cbn [fold_left fst snd]. rewrite IH.
  - apply get_set_neq. intros ->. apply (Hno r'). now left.
  - intros r Hr. apply (Hno r). now right.
Qed.

(** X12: the raw data of a batched read is matched by key, not by
    position: under a key, [tmpData] holds the value of the last pair of
    the answer with that key, and nothing under a key the answer does not
    have. *)
Theorem tmpDataOf_matches_by_key :
  (forall l1 l2 k r, (forall r', ~ In (k, r') l2) ->
     get (tmpDataOf (l1 ++ (k, r) :: l2)) k = Some (SRaw r)) /\
  (forall l k, (forall r, ~ In (k, r) l) -> get (tmpDataOf l) k = None).
Proof.
  split.
  - intros l1 l2 k r Hno. unfold tmpDataOf.
    rewrite fold_left_app. cbn [fold_left fst snd].
    rewrite fold_set_other by exact Hno. apply get_set_eq.
  - intros l k Hno. unfold tmpDataOf. now rewrite fold_set_other.
Qed.

(** X18: an array whose length the store does not hold.  For a
    descriptor with keyType 'Array' whose length entry is absent from
    [data] or holds no value, [getArrayValues] returns the empty list, on
    every instance, so without a read of the store; [getData] on the
    descriptor's name is then the empty sequence, and the array assembly
    of a batched read passes the descriptor by and leaves [tmpData] as it
    is. *)
Theorem getData_of_an_unset_Array_is_empty
    (this : Options) (d : ERC725JSONSchema) :
  keyType d = "Array" ->
  (forall (other : Options) (data : object (string * stored)),
     get data (key d) = None \/
     (exists k, get data (key d) = Some (k, SRaw None)) ->
     getArrayValues other d data = Ok []) /\
  (forall n a p,
     getSchemaElement (schemas this) n = Ok d ->
     getAddressAndProvider this = Ok (a, p) ->
     provider_getData p (address this) (key d) = Ok None ->
     n <> "" ->
     getDataSingle this n = Ok (VArray []) /\
     getData this (KString n) = Ok (Single (VArray []))) /\
  (forall rest tmpData,
     lookupStored tmpData (key d) = SRaw None ->
     assembleArrays this (d :: rest) tmpData =
     assembleArrays this rest tmpData).
Proof.
  intros Hk.
  assert (Hempty : forall (other : Options) (data : object (string * stored)),
            get data (key d) = None \/
            (exists k, get data (key d) = Some (k, SRaw None)) ->
            getArrayValues other d data = Ok []).
  { intros other data H. unfold getArrayValues. rewrite Hk.
    rewrite String.eqb_refl. cbn [negb].
    destruct H as [-> | [k ->]]; reflexivity. }
  split; [exact Hempty|]. split.
  - intros n a p Hres Hap Hread Hn.
    assert (Hp : provider this = Some p).
    { unfold getAddressAndProvider in Hap.
      destruct (address this); [|discriminate].
      destruct (_ || _); [discriminate|].
      destruct (provider this); [|discriminate]. now injection Hap as _ ->. }
    assert (E : getDataSingle this n = Ok (VArray [])).
    { unfold getDataSingle. rewrite Hres. cbn [bind]. rewrite Hp, Hread.
      cbn [bind]. rewrite (isArrayKeyType_Array _ Hk).
      rewrite (Hempty this (dataKeyValueOf d (SRaw None))); [reflexivity|].
      right. exists (key d). apply get_dataKeyValueOf. }
    split; [exact E|].
    assert (Hstr : String.eqb n "" = false) by now apply String.eqb_neq.
    unfold getData. rewrite Hap. cbn [bind]. now rewrite Hstr, E.
  - intros rest tmpData Hl. cbn [assembleArrays]. rewrite Hl.
    rewrite (Hempty this (dataKeyValueOf d (SRaw None))); [reflexivity|].
    right. exists (key d). apply get_dataKeyValueOf.
Qed.

End Assembling.

(** ** Permissions: [encodePermissions] and [decodePermissions] *)

Section PermissionBits.
Local Open Scope Z_scope.

Lemma land_pow2_clear (b x : Z) :
  0 <= b -> Z.testbit x b = false -> Z.land (2 ^ b) x = 0.
Proof.
  intros Hb Hx. apply Z.bits_inj'. intros i Hi.
  rewrite Z.land_spec, Z.bits_0, Z.pow2_bits_eqb by lia.
  destruct (Z.eqb_spec b i); [subst; now rewrite Hx | reflexivity].
Qed.

Lemma testbit_add_pow2 (b x i : Z) :
  0 <= b -> 0 <= i -> Z.testbit x b = false ->
  Z.testbit (2 ^ b + x) i = (b =? i) || Z.testbit x i.
Proof.
  intros Hb Hi Hx.
  rewrite Z.add_nocarry_lxor by now apply land_pow2_clear.
  rewrite Z.lxor_lor by now apply land_pow2_clear.
  now rewrite Z.lor_spec, Z.pow2_bits_eqb by lia.
Qed.

Lemma sumBits_nonneg (bs : list Z) :
  (forall b, In b bs -> 0 <= b) -> 0 <= sumBits bs.
Proof.
  induction bs as [|b bs IH]; intros H; simpl; [lia|].
  assert (0 <= b) by (apply H; now left).
  assert (0 < 2 ^ b) by (apply Z.pow_pos_nonneg; lia).
  assert (0 <= sumBits bs) by (apply IH; intros; apply H; now right). lia.
Qed.

(** The bits of a sum of distinct powers of two. *)
Lemma testbit_sumBits (bs : list Z) :
  NoDup bs -> (forall b, In b bs -> 0 <= b) ->
  forall i, 0 <= i -> Z.testbit (sumBits bs) i = existsb (Z.eqb i) bs.
Proof.
  induction bs as [|b bs IH]; intros Hnd Hpos i Hi; simpl.
  - apply Z.bits_0.
  - inversion Hnd as [|? ? Hnotin Hnd']; subst.
    assert (Hb : 0 <= b) by (apply Hpos; now left).
    assert (Hrest : forall b', In b' bs -> 0 <= b')
      by (intros; apply Hpos; now right).
    assert (Hclear : Z.testbit (sumBits bs) b = false).
    { rewrite (IH Hnd' Hrest b Hb).
      destruct (existsb (Z.eqb b) bs) eqn:E; [|reflexivity].
      apply existsb_exists in E. destruct E as [x [Hx Hbx]].
      apply Z.eqb_eq in Hbx. now subst x. }
    rewrite testbit_add_pow2 by assumption.
    rewrite (IH Hnd' Hrest i Hi). now rewrite (Z.eqb_sym b i).
Qed.

Lemma sumBits_below (bs : list Z) (n : Z) :
  0 <= n -> NoDup bs -> (forall b, In b bs -> 0 <= b < n) ->
  sumBits bs < 2 ^ n.
Proof.
  intros Hn Hnd Hb.
  assert (Hpos : forall b, In b bs -> 0 <= b) by (intros b H; apply Hb in H; lia).
  pose proof (sumBits_nonneg bs Hpos) as H0.
  destruct (Z.eq_dec (sumBits bs) 0) as [E|E].
  - rewrite E. apply Z.pow_pos_nonneg; lia.
  - assert (Hlog : Z.testbit (sumBits bs) (Z.log2 (sumBits bs)) = true)
      by (apply Z.bit_log2; lia).
    rewrite testbit_sumBits in Hlog by (try assumption; apply Z.log2_nonneg).
    apply existsb_exists in Hlog. destruct Hlog as [b [Hin Hbl]].
    apply Z.eqb_eq in Hbl. apply Hb in Hin.
    apply Z.log2_lt_pow2; lia.
Qed.

End PermissionBits.

Section PermissionCodec.
Context {web3 : Web3Utils} {lsp6 : LSP6}.
Local Open Scope Z_scope.

Lemma distinct_NoDup (l : list string) : distinct l = true -> NoDup l.
Proof.
  induction l as [|k l IH]; intros H; [constructor|].
  destruct (distinct_cons _ _ H) as [Hfresh Hd].
  constructor; [|now apply IH]. intros Hin. now apply (Hfresh k Hin).
Qed.

Lemma get_In_distinct {V} (o : object V) (k : string) (v : V) :
  distinct (map fst o) = true -> In (k, v) o -> get o k = Some v.
Proof.
  induction o as [|[k' v'] o IH]; intros Hd Hin; [destruct Hin|].
  cbn [map fst] in Hd. destruct (distinct_cons _ _ Hd) as [Hfresh Hd'].
  cbn [get]. destruct Hin as [E|Hin].
  - injection E as -> ->. now rewrite String.eqb_refl.
  - assert (Hne : k' <> k).
    { apply Hfresh. apply in_map_iff. now exists (k, v). }
    apply String.eqb_neq in Hne. rewrite Hne. now apply IH.
Qed.

Lemma get_Some_In {V} (o : object V) (k : string) (v : V) :
  get o k = Some v -> In k (map fst o).
Proof.
  induction o as [|[k' v'] o IH]; simpl; [discriminate|].
  destruct (String.eqb k' k) eqn:E.
  - apply String.eqb_eq in E. now left.
  - intros H. right. now apply IH.
Qed.

Lemma toInt32_small (x : Z) : 0 <= x < 2 ^ 31 -> toInt32 (Some x) = x.
Proof.
  intros H. unfold toInt32.
  rewrite Z.mod_small; [lia|].
  change (2 ^ 32) with (2 * 2 ^ 31). lia.
Qed.

(** [(s & 2^b) === 2^b] reads the bit [b] of [s]. *)
Lemma bitAnd_pow2 (s b : Z) :
  0 <= s < 2 ^ 31 -> 0 <= b < 31 ->
  strictEq (bitAnd (Some s) (Some (2 ^ b))) (Some (2 ^ b)) = Z.testbit s b.
Proof.
  intros Hs Hb.
  assert (Hp : 0 < 2 ^ b < 2 ^ 31).
  { split; [apply Z.pow_pos_nonneg; lia|]. apply Z.pow_lt_mono_r; lia. }
  unfold bitAnd, strictEq. rewrite !toInt32_small by lia.
  destruct (Z.testbit s b) eqn:E.
  - apply Z.eqb_eq. apply Z.bits_inj'. intros i Hi.
    rewrite Z.land_spec, Z.pow2_bits_eqb by lia.
    destruct (Z.eqb_spec b i); [subst; now rewrite E | apply andb_false_r].
  - rewrite Z.land_comm, land_pow2_clear by (try assumption; lia).
    apply Z.eqb_neq. lia.
Qed.

(** The loop of [decodePermissions] over the names of the table. *)
Lemma decode_loop (passed : option Z) (bit : string -> Z)
    (l : list string) (acc : object bool) :
  (forall k, In k l ->
     hexToNumber (get LSP6_DEFAULT_PERMISSIONS k) = Ok (Some (2 ^ bit k))) ->
  exists r,
    fold_left
      (fun acc testPermission =>
         result <- acc ;;
         decimalTestPermission <-
           hexToNumber (get LSP6_DEFAULT_PERMISSIONS testPermission) ;;
         Ok (set result testPermission
               (strictEq (bitAnd passed decimalTestPermission)
                  decimalTestPermission)))
      l (Ok acc) = Ok r /\
    forall k, In k l ->
      get r k = Some (strictEq (bitAnd passed (Some (2 ^ bit k)))
                        (Some (2 ^ bit k))).
Proof.
  revert acc.
  induction l as [|t l IH] using rev_ind; intros acc Hl.
  - exists acc. split; [reflexivity|]. intros k [].
  - destruct (IH acc) as [r [Hr Hget]].
    { intros k Hk. apply Hl. apply in_or_app. now left. }
    rewrite fold_left_app. cbn [fold_left]. rewrite Hr. cbn [bind].
    rewrite (Hl t) by (apply in_or_app; right; now left). cbn [bind].
    eexists. split; [reflexivity|].
    intros k Hk. destruct (String.eqb_spec t k) as [->|Hne].
    + apply get_set_eq.
    + rewrite get_set_neq by exact Hne. apply Hget.
      apply in_app_or in Hk. destruct Hk as [Hk|[Hk|[]]]; [exact Hk|].
      now destruct Hne.
Qed.

(** The loop of [encodePermissions] over the names of [permissions]. *)
Lemma encode_loop (permissions : object bool) (bit : string -> Z)
    (l : list string) (a : Z) :
  (forall k, In k l ->
     hexToNumber (get LSP6_DEFAULT_PERMISSIONS k) = Ok (Some (2 ^ bit k)) /\
     0 <= bit k) ->
  0 <= a ->
  a + sumBits (map bit (filter (granted permissions) l)) < 2 ^ 31 ->
  fold_left
    (fun acc k =>
       previous <- acc ;;
       match get permissions k with
       | Some true =>
           n <- hexToNumber (get LSP6_DEFAULT_PERMISSIONS k) ;;
           Ok (plus previous n)
       | _ => Ok previous
       end)
    l (Ok (Exact a)) =
  Ok (Exact (a + sumBits (map bit (filter (granted permissions) l)))).
Proof.
  revert a. induction l as [|k l IH]; intros a Hl Ha Hsum.
  - simpl. f_equal. f_equal. lia.
  - cbn [fold_left bind filter]. unfold granted at 1 3.
    cbn [filter] in Hsum. unfold granted at 1 in Hsum.
    destruct (Hl k (or_introl eq_refl)) as [Hk Hb].
    assert (Hrest : forall k', In k' l ->
              hexToNumber (get LSP6_DEFAULT_PERMISSIONS k')
                = Ok (Some (2 ^ bit k')) /\ 0 <= bit k')
      by (intros k' Hk'; apply Hl; now right).
    assert (Hnn : 0 <= sumBits (map bit (filter (granted permissions) l))).
    { apply sumBits_nonneg. intros b Hin. apply in_map_iff in Hin.
      destruct Hin as [k' [<- Hk']]. apply filter_In in Hk'.
      now apply Hrest. }
    destruct (get permissions k) as [[|]|].
    + cbn [map sumBits] in Hsum |- *. rewrite Hk. cbn [bind plus].
      assert (Hp : 0 < 2 ^ bit k) by (apply Z.pow_pos_nonneg; lia).
      assert (H53 : 2 ^ 31 < 2 ^ 53) by (apply Z.pow_lt_mono_r; lia).
      assert (E1 : (Z.abs (2 ^ bit k) <=? 2 ^ 53) = true)
        by (apply Z.leb_le; lia).
      assert (E2 : (Z.abs (a + 2 ^ bit k) <=? 2 ^ 53) = true)
        by (apply Z.leb_le; lia).
      rewrite E1, E2. cbn [andb].
      rewrite IH by (try assumption; lia). f_equal. f_equal. lia.
    + now apply IH.
    + now apply IH.
Qed.

(** X13: the permissions of a table that puts the names on distinct bits
    below 31, written by [encodePermissions] and read by
    [decodePermissions]: every name of the table is read as it was
    granted, a name that [permissions] does not have as not granted.
    web3-utils is asked to read back, below 2^31, the padded hex it prints,
    and the hex of all permissions is not the hex of such a number. *)
Theorem decodePermissions_encodePermissions
    (bit : string -> Z) (permissions : object bool) :
  distinct (map fst LSP6_DEFAULT_PERMISSIONS) = true ->
  (forall k hex, In (k, hex) LSP6_DEFAULT_PERMISSIONS ->
     hexToNumber (Some hex) = Ok (Some (2 ^ bit k)) /\ 0 <= bit k < 31) ->
  (forall k k', In k (map fst LSP6_DEFAULT_PERMISSIONS) ->
     In k' (map fst LSP6_DEFAULT_PERMISSIONS) -> bit k = bit k' -> k = k') ->
  (forall n, 0 <= n < 2 ^ 31 ->
     exists h, toHex (Exact n) = Ok h /\
               hexToNumber (Some (leftPad h 64)) = Ok (Some n) /\
               leftPad h 64 <> LSP6_ALL_PERMISSIONS) ->
  distinct (map fst permissions) = true ->
  (forall k, In k (map fst permissions) ->
             In k (map fst LSP6_DEFAULT_PERMISSIONS)) ->
  exists hex r,
    encodePermissions permissions = Ok hex /\
    decodePermissions hex = Ok r /\
    forall k, In k (map fst LSP6_DEFAULT_PERMISSIONS) ->
              get r k = Some (granted permissions k).
Proof.
  intros Htable Hbits Hinj Hweb3 Hperm Hsub.
  assert (Hlookup : forall k, In k (map fst LSP6_DEFAULT_PERMISSIONS) ->
            hexToNumber (get LSP6_DEFAULT_PERMISSIONS k) = Ok (Some (2 ^ bit k))
            /\ 0 <= bit k < 31).
  { intros k Hk. apply in_map_iff in Hk. destruct Hk as [[k' hex] [E Hin]].
    simpl in E. subst k'. rewrite (get_In_distinct _ _ _ Htable Hin).
    now apply Hbits. }
  set (ks := filter (granted permissions) (map fst permissions)).
  set (s := sumBits (map bit ks)).
  assert (Hks : forall k, In k ks -> In k (map fst LSP6_DEFAULT_PERMISSIONS)).
  { intros k Hk. apply filter_In in Hk. now apply Hsub. }
  assert (Hnd : NoDup (map bit ks)).
  { assert (Hndk : NoDup ks)
      by (apply NoDup_filter; now apply distinct_NoDup).
    clearbody ks. clear s. induction ks as [|k ks IH]; [constructor|].
    inversion Hndk as [|? ? Hnotin Hndk']; subst. cbn [map]. constructor.
    - intros Hin. apply in_map_iff in Hin. destruct Hin as [k' [E Hk']].
      assert (k' = k).
      { apply Hinj; [apply Hks; now right | apply Hks; now left | exact E]. }
      now subst k'.
    - apply IH; [|exact Hndk']. intros k' Hk'. apply Hks. now right. }
  assert (Hrange : forall b, In b (map bit ks) -> 0 <= b < 31).
  { intros b Hb. apply in_map_iff in Hb. destruct Hb as [k [<- Hk]].
    now apply Hlookup, Hks. }
  assert (Hs : 0 <= s < 2 ^ 31).
  { split.
    - apply sumBits_nonneg. intros b Hb. apply Hrange in Hb. lia.
    - apply sumBits_below; [lia | exact Hnd | exact Hrange]. }
  destruct (Hweb3 s Hs) as [h [Hhex [Hback Hnot]]].
  assert (Henc : encodePermissions permissions = Ok (leftPad h 64)).
  { unfold encodePermissions.
    rewrite (encode_loop permissions bit (map fst permissions) 0).
    - cbn [bind]. change (0 + sumBits _) with s. rewrite Hhex. reflexivity.
    - intros k Hk. destruct (Hlookup k (Hsub k Hk)) as [H1 H2].
      split; [exact H1 | lia].
    - lia.
    - change (0 + sumBits _) with s. lia. }
  destruct (decode_loop (Some s) bit (map fst LSP6_DEFAULT_PERMISSIONS)
              noPermissions) as [r [Hr Hget]].
  { intros k Hk. now apply Hlookup. }
  exists (leftPad h 64), r. split; [exact Henc|]. split.
  - unfold decodePermissions.
    apply String.eqb_neq in Hnot. rewrite Hnot, Hback. cbn [bind]. exact Hr.
  - intros k Hk. rewrite (Hget k Hk). f_equal.
    destruct (Hlookup k Hk) as [_ Hb].
    rewrite bitAnd_pow2 by assumption.
    unfold s. rewrite testbit_sumBits; try assumption; try lia.
    + destruct (granted permissions k) eqn:Hg.
      * apply existsb_exists. exists (bit k). split; [|apply Z.eqb_refl].
        apply in_map. apply filter_In. split; [|exact Hg].
        unfold granted in Hg.
        destruct (get permissions k) as [b|] eqn:Hp; [|discriminate].
        now apply (get_Some_In _ _ b).
      * destruct (existsb (Z.eqb (bit k)) (map bit ks)) eqn:E; [|reflexivity].
        apply existsb_exists in E. destruct E as [b [Hbin Hbk]].
        apply Z.eqb_eq in Hbk. apply in_map_iff in Hbin.
        destruct Hbin as [k' [Hk' Hin']].
        assert (k' = k) by (apply Hinj; [now apply Hks | exact Hk | congruence]).
        subst k'. apply filter_In in Hin'. destruct Hin' as [_ Hg'].
        congruence.
    + intros b Hbin. apply Hrange in Hbin. lia.
Qed.

Lemma fold_set_true (l : list string) (acc : object bool) (k : string) :
  get (fold_left (fun result testPermission => set result testPermission true)
         l acc) k =
  if existsb (String.eqb k) l then Some true else get acc k.
Proof.
  revert acc. induction l as [|t l IH]; intros acc; [reflexivity|].
  cbn [fold_left existsb]. rewrite IH.
  destruct (existsb (String.eqb k) l); [now rewrite orb_true_r|].
  rewrite orb_false_r. destruct (String.eqb_spec k t) as [->|Hne].
  - apply get_set_eq.
  - apply get_set_neq. congruence.
Qed.

(** X14: the hex of all permissions is decoded without being read as a
    number: [decodePermissions] returns, with no error, every name of the
    table as granted, and the ten names it starts from that the table does
    not have as not granted. *)
Theorem decodePermissions_of_all_permissions :
  exists r,
    decodePermissions LSP6_ALL_PERMISSIONS = Ok r /\
    (forall k, In k (map fst LSP6_DEFAULT_PERMISSIONS) -> get r k = Some true) /\
    (forall k, ~ In k (map fst LSP6_DEFAULT_PERMISSIONS) ->
               get r k = get noPermissions k).
Proof.
  unfold decodePermissions. rewrite String.eqb_refl.
  eexists. split; [reflexivity|]. split; intros k Hk; rewrite fold_set_true.
  - assert (E : existsb (String.eqb k) (map fst LSP6_DEFAULT_PERMISSIONS) = true).
    { apply existsb_exists. exists k. split; [exact Hk | apply String.eqb_refl]. }
    now rewrite E.
  - destruct (existsb (String.eqb k) (map fst LSP6_DEFAULT_PERMISSIONS)) eqn:E;
      [|reflexivity].
    apply existsb_exists in E. destruct E as [t [Ht Hkt]].
    apply String.eqb_eq in Hkt. now subst t.
Qed.

Lemma fold_left_ext_in {A B} (f g : A -> B -> A) (l : list B) (a : A) :
  (forall x b, In b l -> f x b = g x b) ->
  fold_left f l a = fold_left g l a.
Proof.
  revert a. induction l as [|b l IH]; intros a H; [reflexivity|].
  cbn [fold_left]. rewrite (H a b (or_introl eq_refl)).
  apply IH. intros x b' Hb'. apply H. now right.
Qed.

(** X15: [decodePermissions] reads the low 32 bits of the number of its
    argument and nothing above them: two hex strings, neither the hex of
    all permissions, whose numbers agree modulo 2^32 are decoded alike. *)
Theorem decodePermissions_reads_32_bits (h1 h2 : string) (n1 n2 : Z) :
  h1 <> LSP6_ALL_PERMISSIONS ->
  h2 <> LSP6_ALL_PERMISSIONS ->
  hexToNumber (Some h1) = Ok (Some n1) ->
  hexToNumber (Some h2) = Ok (Some n2) ->
  n1 mod 2 ^ 32 = n2 mod 2 ^ 32 ->
  decodePermissions h1 = decodePermissions h2.
Proof.
  intros H1 H2 Hn1 Hn2 Hmod. unfold decodePermissions.
  apply String.eqb_neq in H1, H2. rewrite H1, H2, Hn1, Hn2. cbn [bind].
  assert (E : toInt32 (Some n1) = toInt32 (Some n2)).
  { unfold toInt32. f_equal.
    rewrite (Z.add_mod n1), (Z.add_mod n2) by lia. now rewrite Hmod. }
  apply fold_left_ext_in. intros acc t _. unfold bitAnd. now rewrite E.
Qed.

End PermissionCodec.

(** ** The hex printer and reader of the concrete setting *)

Section SampleHex.
Import SampleLSP6.
Local Open Scope Z_scope.

Lemma digitValue_hexDigit (k : nat) :
  (k < 16)%nat -> digitValue (hexDigit k) = Some (Z.of_nat k).
Proof.
  intros H. do 16 (destruct k as [|k]; [reflexivity|]). lia.
Qed.

Lemma readHex_app (l : list ascii) (c : ascii) :
  readHex (l ++ [c]) =
  match readHex l, digitValue c with
  | Some a, Some d => Some (a * 16 + d)
  | _, _ => None
  end.
Proof. unfold readHex. now rewrite fold_left_app. Qed.

Lemma readHex_hexDigits (w : nat) (n : Z) :
  readHex (rev (hexDigits w n)) = Some (n mod 16 ^ Z.of_nat w).
Proof.
  revert n. induction w as [|w IH]; intros n.
  - simpl. now rewrite Z.mod_1_r.
  - cbn [hexDigits rev]. rewrite readHex_app, IH.
    assert (Hd : 0 <= n mod 16 < 16) by (apply Z.mod_pos_bound; lia).
    rewrite digitValue_hexDigit by lia. rewrite Z2Nat.id by lia.
    rewrite Nat2Z.inj_succ, Z.pow_succ_r by lia.
    assert (0 < 16 ^ Z.of_nat w) by (apply Z.pow_pos_nonneg; lia).
    rewrite (Z.rem_mul_r n 16 (16 ^ Z.of_nat w)) by lia. f_equal. lia.
Qed.

Lemma readHex_zero (l : list ascii) : readHex ("0"%char :: l) = readHex l.
Proof. reflexivity. Qed.

Lemma readHex_stripZeros (l : list ascii) : readHex (stripZeros l) = readHex l.
Proof.
  induction l as [|c l IH]; [reflexivity|].
  destruct l as [|c2 l]; [reflexivity|].
  cbn [stripZeros]. destruct (Ascii.eqb c "0") eqn:E; [|reflexivity].
  apply Ascii.eqb_eq in E. subst c. now rewrite readHex_zero.
Qed.

Lemma readHex_zeros (m : nat) (l : list ascii) :
  readHex (repeat "0"%char m ++ l) = readHex l.
Proof.
  induction m as [|m IH]; [reflexivity|].
  cbn [repeat app]. now rewrite readHex_zero.
Qed.

Lemma stripZeros_length (l : list ascii) :
  (List.length (stripZeros l) <= List.length l)%nat /\
  (l <> [] -> stripZeros l <> []).
Proof.
  induction l as [|c l IH]; [split; [simpl; lia | congruence]|].
  destruct l as [|c2 l]; [split; [simpl; lia | discriminate]|].
  cbn [stripZeros]. destruct (Ascii.eqb c "0").
  - destruct IH as [H1 H2]. split; [simpl in *; lia|].
    intros _. apply H2. discriminate.
  - split; [lia | discriminate].
Qed.

Lemma hexDigits_length (w : nat) (n : Z) : List.length (hexDigits w n) = w.
Proof.
  revert n. induction w as [|w IH]; intros n; simpl; [reflexivity|].
  now rewrite IH.
Qed.

Lemma string_of_list_ascii_app (l1 l2 : list ascii) :
  string_of_list_ascii (l1 ++ l2) =
  (string_of_list_ascii l1 ++ string_of_list_ascii l2)%string.
Proof. induction l1 as [|c l1 IH]; simpl; [reflexivity | now rewrite IH]. Qed.

Lemma string_of_list_ascii_length (l : list ascii) :
  String.length (string_of_list_ascii l) = List.length l.
Proof. induction l as [|c l IH]; simpl; [reflexivity | now rewrite IH]. Qed.

(** What is printed and padded is read back, below 2^31, and is not the
    hex of all permissions. *)
Lemma sample_hex_roundtrip (n : Z) :
  0 <= n < 2 ^ 31 ->
  exists h, toHex (Exact n) = Ok h /\
            hexToNumber (Some (leftPad h 64)) = Ok (Some n) /\
            leftPad h 64 <> LSP6_ALL_PERMISSIONS.
Proof.
  intros Hn.
  assert (H53 : 2 ^ 31 < 2 ^ 53) by (apply Z.pow_lt_mono_r; lia).
  exists (print n). split.
  { cbn [toHex web3].
    assert (E0 : (0 <=? n) = true) by (apply Z.leb_le; lia).
    assert (E1 : (n <? 2 ^ 53) = true) by (apply Z.ltb_lt; lia).
    now rewrite E0, E1. }
  set (D := stripZeros (rev (hexDigits 14 n))).
  assert (HD : (List.length D <= 14)%nat).
  { unfold D. destruct (stripZeros_length (rev (hexDigits 14 n))) as [H _].
    rewrite length_rev, hexDigits_length in H. exact H. }
  assert (Hpad : leftPad (print n) 64 =
                 ("0x" ++ string_of_list_ascii
                            (repeat "0"%char (64 - List.length D) ++ D))%string).
  { cbn [leftPad web3]. unfold pad, print. fold D.
    rewrite (stripPrefix_app "0x" (string_of_list_ascii D)).
    rewrite string_of_list_ascii_length, string_of_list_ascii_app.
    reflexivity. }
  rewrite Hpad.
  destruct (64 - List.length D)%nat as [|m] eqn:Hm; [lia|].
  cbn [repeat app string_of_list_ascii].
  split.
  - cbn [hexToNumber web3]. cbn [String.eqb append].
    pose proof (stripPrefix_app "0x"
                  (String "0" (string_of_list_ascii (repeat "0"%char m ++ D))))
      as Hstrip.
    cbn [append] in Hstrip. rewrite Hstrip.
    cbn [list_ascii_of_string]. rewrite list_ascii_of_string_of_list_ascii.
    rewrite readHex_zero, readHex_zeros. unfold D.
    rewrite readHex_stripZeros, readHex_hexDigits.
    assert (E : n mod 16 ^ Z.of_nat 14 = n).
    { apply Z.mod_small. change (16 ^ Z.of_nat 14) with (2 ^ 56).
      assert (2 ^ 31 < 2 ^ 56) by (apply Z.pow_lt_mono_r; lia). lia. }
    rewrite E.
    assert (E1 : (n <? 2 ^ 53) = true) by (apply Z.ltb_lt; lia).
    now rewrite E1.
  - cbn [LSP6_ALL_PERMISSIONS lsp6 append]. discriminate.
Qed.

End SampleHex.

(** * The further properties at concrete inputs *)

Section FurtherScenarios.
Import Sample.
Import SampleLSP6.

Lemma operations_need_address_and_provider_witness :
  fetchData noAddress (KString "MyValue") = Throw MissingAddress /\
  getOwner noAddress (Some "0xabc") = Throw MissingAddress /\
  getData noProvider KUndefined = Throw MissingProvider /\
  isValidSignature noProvider "message" "0xsigned" = Throw MissingProvider.
Proof.
  destruct (operations_need_address_and_provider noAddress) as [Ha _].
  destruct (operations_need_address_and_provider noProvider) as [_ Hp].
  destruct (Ha (or_introl eq_refl) (KString "MyValue") (Some "0xabc")
              "message" "0xsigned") as [_ [H1 [H2 _]]].
  assert (Hne : "0xContract" <> "") by discriminate.
  destruct (Hp "0xContract" eq_refl Hne eq_refl eq_refl KUndefined None
              "message" "0xsigned") as [H3 [_ [_ H4]]].
  repeat split; assumption.
Defined.

Lemma constructor_outcome_witness :
  exists this,
    constructor (Some [MyValue; Stale]) None ProviderAbsent None = Ok this /\
    schemas this = [MyValue] /\ address this = None /\ provider this = None.
Proof.
  destruct constructor_outcome as [_ [_ H]].
  assert (Hp : ProviderAbsent <> ProviderUnsupported) by discriminate.
  destruct (H [MyValue; Stale] None ProviderAbsent None Hp)
    as [this [H1 [H2 [H3 H4]]]].
  exists this. repeat split; assumption.
Defined.


Lemma fetchData_without_references_is_getData_witness :
  fetchData items (KArray ["MyValue"]) =
  Ok (FetchedMultiple [("MyValue", Decoded (VString "hello"))]).
Proof.
  apply (fetchData_without_references_is_getData items ["MyValue"]
           [("MyValue", VString "hello")]).
  - vm_compute. reflexivity.
  - intros k v [E|[]]. injection E as <- <-.
    exists MyValue. split; reflexivity.
Defined.

Lemma fetchData_keeps_names_and_plain_values_witness :
  map fst [ ("MyValue", Decoded (VString "hello"));
            ("A", Fetched (Json (JString "A")));
            ("B", Decoded (VUrl (reference "B" "ipfs://QmB"))) ] =
  ["MyValue"; "A"; "B"] /\
  get [ ("MyValue", Decoded (VString "hello"));
        ("A", Fetched (Json (JString "A")));
        ("B", Decoded (VUrl (reference "B" "ipfs://QmB"))) ] "MyValue" =
  Some (Decoded (VString "hello")).
Proof.
  destruct (fetchData_keeps_names_and_plain_values twoProfiles
              ["MyValue"; "A"; "B"]
              [ ("MyValue", VString "hello");
                ("A", VUrl (reference "A" "ipfs://QmA"));
                ("B", VUrl (reference "B" "ipfs://QmB")) ]
              [ ("MyValue", Decoded (VString "hello"));
                ("A", Fetched (Json (JString "A")));
                ("B", Decoded (VUrl (reference "B" "ipfs://QmB"))) ])
    as [H1 H2]; [vm_compute; reflexivity | vm_compute; reflexivity |].
  split; [exact H1|].
  exact (H2 "MyValue" MyValue eq_refl eq_refl).
Defined.


Lemma patchIPFSUrlsIfApplicable_replaces_first_occurrence_witness :
  fetchTarget redirecting
    (VUrl (reference "page" "https://example.com/?next=ipfs://QmA")) =
  Some ("https://example.com/?next=" ++ ipfsGateway redirecting ++ "QmA").
Proof.
  apply (patchIPFSUrlsIfApplicable_replaces_first_occurrence redirecting
           (reference "page" "https://example.com/?next=ipfs://QmA")
           "https://example.com/?next=" "QmA").
  - reflexivity.
  - reflexivity.
  - apply (splitOn_first "ipfs://" _ _ "QmA"). vm_compute. reflexivity.
Defined.

Lemma patchIPFSUrlsIfApplicable_leaves_other_urls_witness :
  fetchTarget twoProfiles (VUrl (reference "A" "https://example.com/a.json")) =
  Some "https://example.com/a.json" /\
  patchIPFSUrlsIfApplicable twoProfiles (VString "ipfs://QmA") =
  VString "ipfs://QmA".
Proof.
  destruct (patchIPFSUrlsIfApplicable_leaves_other_urls twoProfiles)
    as [H1 H2].
  split.
  - apply (H1 (reference "A" "https://example.com/a.json")).
    apply splitOn_none. vm_compute. reflexivity.
  - apply H2. reflexivity.
Defined.

Lemma getArrayValues_reads_elements_below_length_witness :
  (keyType Items = "Array" /\
   ([ ("0xItems[]0", SRaw (Some (list_byte_of_string "a")));
      ("0xItems[]1", SRaw (Some (list_byte_of_string "b"))) ] = [] \/
    exists value arrayLength p answer,
      get (dataKeyValueOf Items (SRaw (Some (encodeUint 32 2)))) (key Items)
        = Some value /\
      truthyStored (snd value) = true /\
      decodeKeyValue "Number" "uint256" (snd value) (name Items)
        = Ok arrayLength /\
      provider items = Some p /\
      provider_getAllData p (address items)
        (filter (fun k => negb (hasOwnProperty
                   (dataKeyValueOf Items (SRaw (Some (encodeUint 32 2)))) k))
           (map (encodeArrayKey (key Items))
              (seq 0 (lengthOf arrayLength)))) = Ok answer /\
      [ ("0xItems[]0", SRaw (Some (list_byte_of_string "a")));
        ("0xItems[]1", SRaw (Some (list_byte_of_string "b"))) ] =
        map (fun kv => (fst kv, SRaw (snd kv))) answer)) /\
  getArrayValues items Items
    (dataKeyValueOf Items (SRaw (Some (encodeUint 32 2)))) =
  Ok (map (fun kv => (fst kv, SRaw (snd kv)))
        [ ("0xItems[]0", Some (list_byte_of_string "a"));
          ("0xItems[]1", Some (list_byte_of_string "b")) ]) /\
  In "0xItems[]1"
    (filter (fun k => negb (hasOwnProperty
               (dataKeyValueOf Items (SRaw (Some (encodeUint 32 2)))) k))
       (map (encodeArrayKey (key Items)) (seq 0 2))).
Proof.
  destruct (getArrayValues_reads_elements_below_length items Items
              (dataKeyValueOf Items (SRaw (Some (encodeUint 32 2)))))
    as [H1 [H2 H3]].
  split; [apply H1; vm_compute; reflexivity|]. split.
  - apply (H2 (key Items, SRaw (Some (encodeUint 32 2))) (VNumber 2)
              (storeProvider itemsStore never));
      vm_compute; reflexivity.
  - apply H3. split; [reflexivity|]. exists 1. split; [lia | reflexivity].
Defined.

Lemma inexact_Array_keyType_fails_every_batch_witness :
  isOk (getData lowercase (KArray ["MyValue"])) = false /\
  isOk (fetchData lowercase (KString "MyValue")) = false /\
  getData lowercase (KString "MyValue") = Ok (Single (VString "hello")).
Proof.
  assert (Hin : In things (schemas lowercase)) by (right; left; reflexivity).
  assert (Hk : keyType things <> "Array") by discriminate.
  destruct (inexact_Array_keyType_fails_every_batch lowercase things
              Hin eq_refl Hk) as [_ [H1 [_ H2]]].
  split; [apply H1|]. split; [apply H2 | reflexivity].
Defined.

Lemma tmpDataOf_matches_by_key_witness :
  get (tmpDataOf [ ("0xA", None); ("0xB", Some []); ("0xA", Some []) ]) "0xA" =
    Some (SRaw (Some [])) /\
  get (tmpDataOf [ ("0xA", None); ("0xB", Some []) ]) "0xC" = None.
Proof.
  destruct tmpDataOf_matches_by_key as [H1 H2]. split.
  - apply (H1 [("0xA", None); ("0xB", Some [])] [] "0xA" (Some [])).
    intros r' [].
  - apply H2. intros r [E|[E|[]]]; discriminate.
Defined.

Lemma decodePermissions_encodePermissions_witness :
  exists hex r,
    encodePermissions [("CHANGEOWNER", true); ("CALL", true); ("SIGN", false)]
      = Ok hex /\
    decodePermissions hex = Ok r /\
    forall k, In k (map fst LSP6_DEFAULT_PERMISSIONS) ->
      get r k =
      Some (granted [("CHANGEOWNER", true); ("CALL", true); ("SIGN", false)] k).
Proof.
  apply (decodePermissions_encodePermissions bitOf).
  - reflexivity.
  - intros k hex Hin. cbn [LSP6_DEFAULT_PERMISSIONS lsp6] in Hin.
    repeat (destruct Hin as [E|Hin];
            [injection E as <- <-; split; [vm_compute; reflexivity|];
             vm_compute; split; [discriminate | reflexivity]|]).
    destruct Hin.
  - intros k k' Hk Hk' E. cbn [LSP6_DEFAULT_PERMISSIONS lsp6 map fst] in Hk, Hk'.
    repeat (destruct Hk as [<-|Hk]; [|]); try (now destruct Hk);
      repeat (destruct Hk' as [<-|Hk']; [|]); try (now destruct Hk');
      first [reflexivity | vm_compute in E; discriminate E].
  - exact sample_hex_roundtrip.
  - reflexivity.
  - intros k Hk. cbn [map fst] in Hk.
    destruct Hk as [<-|[<-|[<-|[]]]]; vm_compute; tauto.
Defined.

Lemma decodePermissions_of_all_permissions_witness :
  exists r,
    decodePermissions LSP6_ALL_PERMISSIONS = Ok r /\
    get r "SIGN" = Some true /\
    get r "UNKNOWN" = None.
Proof.
  destruct decodePermissions_of_all_permissions as [r [H1 [H2 H3]]].
  exists r. split; [exact H1|]. split.
  - apply H2. vm_compute. tauto.
  - rewrite H3; [reflexivity|]. vm_compute. intuition discriminate.
Defined.

Lemma decodePermissions_reads_32_bits_witness :
  decodePermissions (word 17) = decodePermissions "0x100000011".
Proof.
  apply (decodePermissions_reads_32_bits (word 17) "0x100000011"
           17 (2 ^ 32 + 17)%Z).
  - vm_compute. discriminate.
  - vm_compute. discriminate.
  - vm_compute. reflexivity.
  - vm_compute. reflexivity.
  - vm_compute. reflexivity.
Defined.

Lemma constructor_ipfsGateway_witness :
  ipfsGateway registered = convertIPFSGatewayUrl "https://gw/ipfs/".
Proof.
  assert (H : constructor (Some [MyValue; Stale; Items]) (Some "0xContract")
                (ProviderWithRequest (storeProvider [] never))
                (Some {| config_ipfsGateway := Some "https://gw/ipfs/" |})
              = Ok registered) by reflexivity.
  destruct (constructor_ipfsGateway _ _ _ _ _ H) as [Hg _].
  apply (Hg "https://gw/ipfs/"); [reflexivity | discriminate].
Defined.

Lemma fetchData_overlays_one_entry_at_most_witness :
  let decoded :=
    map (fun kv : string * value => (fst kv, Decoded (snd kv)))
      [ ("MyValue", VString "hello");
        ("A", VUrl (reference "A" "ipfs://QmA"));
        ("B", VUrl (reference "B" "ipfs://QmB")) ] in
  [ ("MyValue", Decoded (VString "hello"));
    ("A", Fetched (Json (JString "A")));
    ("B", Decoded (VUrl (reference "B" "ipfs://QmB"))) ] = decoded \/
  exists k x,
    [ ("MyValue", Decoded (VString "hello"));
      ("A", Fetched (Json (JString "A")));
      ("B", Decoded (VUrl (reference "B" "ipfs://QmB"))) ] = set decoded k x.
Proof.
  apply (fetchData_overlays_one_entry_at_most twoProfiles ["MyValue"; "A"; "B"]);
    vm_compute; reflexivity.
Defined.

Lemma getData_of_an_unset_Array_is_empty_witness :
  keyType Items = "Array" /\
  getArrayValues itemsRejected Items [] = Ok [] /\
  getData itemsUnset (KString "Items[]") = Ok (Single (VArray [])) /\
  assembleArrays itemsUnset [Items]
    [("0xMyValue", SRaw (Some (list_byte_of_string "hello")))] =
  Ok [("0xMyValue", SRaw (Some (list_byte_of_string "hello")))].
Proof.
  destruct (getData_of_an_unset_Array_is_empty itemsUnset Items eq_refl)
    as [H1 [H2 H3]].
  split; [reflexivity|]. split; [apply H1; left; reflexivity|]. split.
  - apply (H2 "Items[]" "0xContract"
             (storeProvider [("0xMyValue", list_byte_of_string "hello")] never));
      try reflexivity; discriminate.
  - rewrite H3; reflexivity.
Defined.

End FurtherScenarios.
